(** * The dependency-injection container of [src/di/container.ts]

    A shallow embedding of the class [DIContainer] and of the programs that
    use it (the factories registered in [src/di/users.ts] and in the test
    set-up), followed by the properties of registration, resolution and reset.

    The container keeps two [Map]s keyed by strings.  The singleton map holds
    references to mutable records [{ instance?, factory }]; the factory map
    holds functions.  Factories are JavaScript closures: they run arbitrary
    code, may throw, may allocate objects, and may call back into the
    container (the use-case factory of [users.ts] resolves the repository
    singleton).  The embedding therefore has
    - a store of [Singleton] records addressed by reference, so that the
      assignment [singleton.instance = ...] hits the record that was looked up
      before the factory ran, whatever the factory did to the map meanwhile;
    - function identities with a code table, and a log of invocations;
    - an interpreter whose fuel bounds the nesting depth of factory calls. *)

From stdpp Require Import gmap strings list fin_maps pretty.

Set Default Proof Using "Type".
Open Scope string_scope.

(** ** JavaScript values *)

Definition loc := nat.   (* object references *)
Definition fid := nat.   (* function identities *)
Definition cell := nat.  (* mutable variables captured by closures *)

Inductive value : Type :=
| VUndefined
| VNull
| VBool (b : bool)
| VNum (n : Z)           (* an integral number *)
| VNaN
| VStr (s : string)
| VObj (l : loc).        (* a reference to an object *)

(** [ToBoolean]: what [!x] and [if (x)] look at. *)
Definition to_boolean (v : value) : bool :=
  match v with
  | VUndefined => false
  | VNull => false
  | VBool b => b
  | VNum n => negb (n =? 0)%Z
  | VNaN => false
  | VStr s => negb (String.eqb s EmptyString)
  | VObj _ => true
  end.

(** [===]: objects compare by reference, [NaN] differs from itself. *)
Definition strict_eq (a b : value) : bool :=
  match a, b with
  | VUndefined, VUndefined => true
  | VNull, VNull => true
  | VBool x, VBool y => Bool.eqb x y
  | VNum x, VNum y => (x =? y)%Z
  | VStr x, VStr y => String.eqb x y
  | VObj x, VObj y => Nat.eqb x y
  | _, _ => false
  end.

(** What a [throw] carries: [new Error(message)] or any other value. *)
Inductive exn : Type :=
| Error (message : string)
| Thrown (v : value).

(** The result of running a piece of code.  [OutOfFuel] and [Stuck] belong to
    the model: the first says that the nesting bound was reached, the second
    that a reference in the singleton map points to no record. *)
Inductive outcome : Type :=
| Returned (v : value)
| Threw (e : exn)
| OutOfFuel
| Stuck.

(** ** The container's data

    [type Factory<T> = () => T] and
    [type Singleton<T> = { instance?: T; factory: Factory<T> }]. *)

Record Singleton : Type := mkSingleton {
  instance : option value;
  factory : fid;
}.

(** Reading [singleton.instance]: an absent property reads as [undefined]. *)
Definition read_instance (s : Singleton) : value :=
  default VUndefined (instance s).

(** The state of the program: the two private fields of the module-level
    [container], the store of [Singleton] records, and the part of the world
    that factories act on. *)
Record state : Type := mkState {
  singletons : gmap string loc;   (* this.singletons, a Map of references *)
  factories : gmap string fid;    (* this.factories *)
  heap : gmap loc Singleton;      (* the records the singleton map refers to *)
  next_loc : loc;                 (* next fresh record reference *)
  next_obj : loc;                 (* next fresh object reference *)
  cells : gmap cell value;        (* variables captured by closures *)
  invocations : list fid;         (* functions invoked so far, latest first *)
}.

Definition initial : state :=
  mkState ∅ ∅ ∅ 0 0 ∅ [].

(** How many times function [f] has been invoked. *)
Definition calls (f : fid) (st : state) : nat :=
  count_occ Nat.eq_dec (invocations st) f.

Definition M : Type := state -> outcome * state.

(** ** Field updates *)

Definition set_singletons (m : gmap string loc) (st : state) : state :=
  mkState m (factories st) (heap st) (next_loc st) (next_obj st) (cells st)
          (invocations st).

Definition set_factories (m : gmap string fid) (st : state) : state :=
  mkState (singletons st) m (heap st) (next_loc st) (next_obj st) (cells st)
          (invocations st).

Definition set_heap (h : gmap loc Singleton) (st : state) : state :=
  mkState (singletons st) (factories st) h (next_loc st) (next_obj st)
          (cells st) (invocations st).

(** The object literal [{ factory }]: a fresh record with no [instance]. *)
Definition alloc_singleton (f : fid) (st : state) : loc * state :=
  (next_loc st,
   mkState (singletons st) (factories st)
           (<[next_loc st := mkSingleton None f]> (heap st))
           (S (next_loc st)) (next_obj st) (cells st) (invocations st)).

(** [singleton.instance = v] on the record at [l].  No method assigns the
    [factory] field of a record after its creation, and the functions of
    this development do not touch the [this] that the call
    [singleton.factory()] hands them, so the record still holds [f]. *)
Definition write_instance (l : loc) (f : fid) (v : value) (st : state) : state :=
  set_heap (<[l := mkSingleton (Some v) f]> (heap st)) st.

Definition new_object (st : state) : loc * state :=
  (next_obj st,
   mkState (singletons st) (factories st) (heap st) (next_loc st)
           (S (next_obj st)) (cells st) (invocations st)).

Definition set_cell (c : cell) (v : value) (st : state) : state :=
  mkState (singletons st) (factories st) (heap st) (next_loc st) (next_obj st)
          (<[c := v]> (cells st)) (invocations st).

Definition record_call (f : fid) (st : state) : state :=
  mkState (singletons st) (factories st) (heap st) (next_loc st) (next_obj st)
          (cells st) (f :: invocations st).

(** ** The methods of [DIContainer]

    The two resolving methods call a stored function; [call] is how a
    function is invoked. *)

(** [registerSingleton(key, factory) { this.singletons.set(key, { factory }); }] *)
Definition registerSingleton (key : string) (f : fid) : M := fun st =>
  let '(l, st1) := alloc_singleton f st in
  (Returned VUndefined, set_singletons (<[key := l]> (singletons st1)) st1).

(** [registerFactory(key, factory) { this.factories.set(key, factory); }] *)
Definition registerFactory (key : string) (f : fid) : M := fun st =>
  (Returned VUndefined, set_factories (<[key := f]> (factories st)) st).

(** [getSingleton(key)]:
<<
    const singleton = this.singletons.get(key);
    if (!singleton) { throw new Error(`Singleton not registered: ${key}`); }
    if (!singleton.instance) { singleton.instance = singleton.factory(); }
    return singleton.instance as T;
>>
    A record is an object, hence truthy: [!singleton] holds exactly when the
    key is absent. *)
Definition getSingleton_with (call : fid -> M) (key : string) : M := fun st =>
  match singletons st !! key with
  | None => (Threw (Error ("Singleton not registered: " +:+ key)), st)
  | Some l =>
      match heap st !! l with
      | None => (Stuck, st)
      | Some singleton =>
          if negb (to_boolean (read_instance singleton)) then
            match call (factory singleton) st with
            | (Returned v, st') =>
                (Returned v, write_instance l (factory singleton) v st')
            | (o, st') => (o, st')
            end
          else (Returned (read_instance singleton), st)
      end
  end.

(** [getFactory(key)]:
<<
    const factory = this.factories.get(key);
    if (!factory) { throw new Error(`Factory not registered: ${key}`); }
    return factory();
>>
    A function is truthy: [!factory] holds exactly when the key is absent. *)
Definition getFactory_with (call : fid -> M) (key : string) : M := fun st =>
  match factories st !! key with
  | None => (Threw (Error ("Factory not registered: " +:+ key)), st)
  | Some f => call f st
  end.

(** [reset() { this.singletons.clear(); this.factories.clear(); }] *)
Definition reset : M := fun st =>
  (Returned VUndefined, set_factories ∅ (set_singletons ∅ st)).

(** ** Code that uses the container

    The body of a function, or a script such as a test's set-up. *)
Inductive prog : Type :=
| Ret (v : value)                          (* return v *)
| Throw (e : exn)                          (* throw e *)
| Bind (p : prog) (k : value -> prog)      (* const x = p; k x *)
| Catch (p : prog) (h : exn -> prog)       (* try { p } catch (e) { h e } *)
| NewObject                                (* new C(...): a fresh object *)
| ReadCell (c : cell)                      (* read a captured variable *)
| WriteCell (c : cell) (v : value)         (* assign a captured variable *)
| CallRegisterSingleton (key : string) (f : fid)
| CallRegisterFactory (key : string) (f : fid)
| CallGetSingleton (key : string)
| CallGetFactory (key : string)
| CallReset.

Section Interpreter.

(** The bodies of the functions of the program. *)
Variable code : fid -> prog.

Fixpoint exec_with (call : fid -> M) (p : prog) (st : state) : outcome * state :=
  match p with
  | Ret v => (Returned v, st)
  | Throw e => (Threw e, st)
  | Bind p k =>
      match exec_with call p st with
      | (Returned v, st') => exec_with call (k v) st'
      | r => r
      end
  | Catch p h =>
      match exec_with call p st with
      | (Threw e, st') => exec_with call (h e) st'
      | r => r
      end
  | NewObject => let '(l, st') := new_object st in (Returned (VObj l), st')
  | ReadCell c => (Returned (default VUndefined (cells st !! c)), st)
  | WriteCell c v => (Returned VUndefined, set_cell c v st)
  | CallRegisterSingleton key f => registerSingleton key f st
  | CallRegisterFactory key f => registerFactory key f st
  | CallGetSingleton key => getSingleton_with call key st
  | CallGetFactory key => getFactory_with call key st
  | CallReset => reset st
  end.

(** Invoking function [f] with at most [fuel] nested invocations. *)
Fixpoint invoke (fuel : nat) (f : fid) (st : state) : outcome * state :=
  match fuel with
  | 0 => (OutOfFuel, st)
  | S n => exec_with (invoke n) (code f) (record_call f st)
  end.

Definition getSingleton (fuel : nat) (key : string) : M :=
  getSingleton_with (invoke fuel) key.

Definition getFactory (fuel : nat) (key : string) : M :=
  getFactory_with (invoke fuel) key.

Definition exec (fuel : nat) (p : prog) : M :=
  exec_with (invoke fuel) p.

End Interpreter.

(** A sequence of registrations, as a bootstrap routine performs it. *)
Inductive registration : Type :=
| RegSingleton (key : string) (f : fid)
| RegFactory (key : string) (f : fid).

Definition register (r : registration) : M :=
  match r with
  | RegSingleton key f => registerSingleton key f
  | RegFactory key f => registerFactory key f
  end.

Fixpoint register_all (rs : list registration) (st : state) : state :=
  match rs with
  | [] => st
  | r :: rs' => register_all rs' (register r st).2
  end.

(** ** The wiring of [src/di/users.ts] *)

Module Users.

(** [DI_KEYS] *)
Definition INTERNAL_USER_REPOSITORY := "InternalUserRepository".
Definition EXTERNAL_USER_REPOSITORY := "ExternalUserRepository".
Definition INTERNAL_USER_USECASE := "InternalUserUseCase".
Definition EXTERNAL_USER_USECASE := "ExternalUserUseCase".
Definition INTERNAL_USER_CONTROLLER := "InternalUserController".
Definition EXTERNAL_USER_CONTROLLER := "ExternalUserController".

(** The variable [mockRepository] of [test/users.test.ts]. *)
Definition MOCK_REPOSITORY : cell := 0.

(** The six arrow functions of [initializeUserDI], numbered in the order of
    the source, then the three of the test's [beforeEach].  The constructors
    only store their argument. *)
Definition closures (f : fid) : prog :=
  match f with
  | 0 => NewObject                       (* () => new InMemoryUserRepository() *)
  | 1 => NewObject                       (* () => new ExternalApiUserRepository() *)
  | 2 => Bind (CallGetSingleton INTERNAL_USER_REPOSITORY) (fun _ => NewObject)
  | 3 => Bind (CallGetSingleton EXTERNAL_USER_REPOSITORY) (fun _ => NewObject)
  | 4 => Bind (CallGetSingleton INTERNAL_USER_USECASE) (fun _ => NewObject)
  | 5 => Bind (CallGetSingleton EXTERNAL_USER_USECASE) (fun _ => NewObject)
  | 6 => ReadCell MOCK_REPOSITORY        (* () => mockRepository *)
  | 7 => Bind (CallGetSingleton INTERNAL_USER_REPOSITORY) (fun _ => NewObject)
  | 8 => Bind (CallGetSingleton INTERNAL_USER_USECASE) (fun _ => NewObject)
  | _ => Ret VUndefined
  end.

Definition initializeUserDI : prog :=
  Bind (CallRegisterSingleton INTERNAL_USER_REPOSITORY 0) (fun _ =>
  Bind (CallRegisterSingleton EXTERNAL_USER_REPOSITORY 1) (fun _ =>
  Bind (CallRegisterSingleton INTERNAL_USER_USECASE 2) (fun _ =>
  Bind (CallRegisterSingleton EXTERNAL_USER_USECASE 3) (fun _ =>
  Bind (CallRegisterSingleton INTERNAL_USER_CONTROLLER 4) (fun _ =>
        CallRegisterSingleton EXTERNAL_USER_CONTROLLER 5))))).

Definition getInternalUserController : prog :=
  CallGetSingleton INTERNAL_USER_CONTROLLER.

Definition getExternalUserController : prog :=
  CallGetSingleton EXTERNAL_USER_CONTROLLER.

(** The part of the test's [beforeEach] that deals with the container; its
    value is the controller that the test application is built on. *)
Definition beforeEach : prog :=
  Bind CallReset (fun _ =>
  Bind NewObject (fun mock =>            (* new MockUserRepository() *)
  Bind (WriteCell MOCK_REPOSITORY mock) (fun _ =>
  Bind (CallRegisterSingleton INTERNAL_USER_REPOSITORY 6) (fun _ =>
  Bind (CallRegisterSingleton INTERNAL_USER_USECASE 7) (fun _ =>
  Bind (CallRegisterSingleton INTERNAL_USER_CONTROLLER 8) (fun _ =>
        CallGetSingleton INTERNAL_USER_CONTROLLER)))))).

Definition booted : state := (exec closures 0 initializeUserDI initial).2.

End Users.

(** ** Small programs used to run the methods

    The factories of a test file: one that builds an object, one that
    returns [null] and [0] in turn, one that returns [0], one that throws. *)

Module Scenario.

Definition MAKE_OBJECT : fid := 0.     (* () => ({}) *)
Definition FLIP : fid := 1.            (* () => (last = last === null ? 0 : null) *)
Definition ZERO : fid := 2.            (* () => 0 *)
Definition BOOM : fid := 3.            (* () => { throw new Error("boom"); } *)
Definition MAKE_OTHER : fid := 4.      (* () => ({}), a second such function *)

(** The variable [last] that the flipping closure captures. *)
Definition LAST : cell := 0.

Definition closures (f : fid) : prog :=
  match f with
  | 0 => NewObject
  | 1 => Bind (ReadCell LAST) (fun v =>
         match v with
         | VNull => Bind (WriteCell LAST (VNum 0)) (fun _ => Ret (VNum 0))
         | _ => Bind (WriteCell LAST VNull) (fun _ => Ret VNull)
         end)
  | 2 => Ret (VNum 0)
  | 3 => Throw (Error "boom")
  | 4 => NewObject
  | _ => Ret VUndefined
  end.

(** The state after [let last = 0;]. *)
Definition with_last : state := set_cell LAST (VNum 0) initial.

End Scenario.

(** ** Predicates on programs and states *)

(** A run that reached a result within the nesting bound. *)
Definition finished (o : outcome) : Prop := o <> OutOfFuel.

(** A program that never calls the container. *)
Fixpoint container_free (p : prog) : Prop :=
  match p with
  | Ret _ | Throw _ | NewObject | ReadCell _ | WriteCell _ _ => True
  | Bind p k => container_free p /\ forall v, container_free (k v)
  | Catch p h => container_free p /\ forall e, container_free (h e)
  | CallRegisterSingleton _ _ | CallRegisterFactory _ _
  | CallGetSingleton _ | CallGetFactory _ | CallReset => False
  end.

(** References handed out so far lie below [next_loc], and every reference
    in the singleton map leads to a record. *)
Definition well_formed (st : state) : Prop :=
  (forall l, is_Some (heap st !! l) -> l < next_loc st)
  /\ (forall key l, singletons st !! key = Some l -> is_Some (heap st !! l)).

(** Records are never removed and keep their [factory]. *)
Definition heap_extends (st st' : state) : Prop :=
  forall l s, heap st !! l = Some s ->
    exists s', heap st' !! l = Some s' /\ factory s' = factory s.

(** What every run does to a well-formed state. *)
Definition sound_run (st : state) (r : outcome * state) : Prop :=
  well_formed st ->
  well_formed r.2 /\ heap_extends st r.2 /\ r.1 <> Stuck.

(** The state whose container part (the two maps, the records, the log) is
    that of [c] and whose objects and captured variables are those of [w]. *)
Definition with_world (w c : state) : state :=
  mkState (singletons c) (factories c) (heap c) (next_loc c)
          (next_obj w) (cells w) (invocations c).

(** A function body that ends by building an object: [() => new C(...)],
    possibly after resolving what the constructor takes. *)
Definition constructs_object (p : prog) : Prop :=
  p = NewObject \/ exists q, p = Bind q (fun _ => NewObject).

(** The assignment [singleton.instance = v] on the record found at [l],
    whatever it holds. *)
Definition assign_instance (l : loc) (v : value) (st : state) : state :=
  set_heap (alter (fun r => mkSingleton (Some v) (factory r)) l (heap st)) st.

(** What a run leaves of the records it started with: no count of
    invocations has gone down, and a record is the same afterwards when it
    held a truthy instance, or when its factory has not been invoked in
    between. *)
Definition keeps_records (st st' : state) : Prop :=
  (forall f, calls f st <= calls f st')
  /\ (forall l s,
        heap st !! l = Some s ->
        to_boolean (read_instance s) = true
        \/ calls (factory s) st' = calls (factory s) st ->
        heap st' !! l = Some s).


(** ** Registrations waiting for, and holding, their instance *)

(** [key] leads to the record at [l], which holds [f] and no instance. *)
Definition pending (st : state) (key : string) (l : loc) (f : fid) : Prop :=
  singletons st !! key = Some l /\ heap st !! l = Some (mkSingleton None f).

(** [key] leads to the record at [l], which holds [f] and the instance [v]. *)
Definition resolved (st : state) (key : string) (l : loc) (f : fid)
    (v : value) : Prop :=
  singletons st !! key = Some l
  /\ heap st !! l = Some (mkSingleton (Some v) f).

Definition pending_below (st : state) (key : string) (l : loc) (f : fid)
  : Prop :=
  pending st key l f /\ l < next_loc st.

(** [key] leads to a record that holds [f] and no truthy instance. *)
Definition unresolved (st : state) (key : string) (f : fid) : Prop :=
  exists l s, singletons st !! key = Some l /\ heap st !! l = Some s
              /\ factory s = f /\ to_boolean (read_instance s) = false.

(** The registrations of [initializeUserDI], in the order of the source. *)
Definition users_wiring : list registration :=
  [RegSingleton Users.INTERNAL_USER_REPOSITORY 0;
   RegSingleton Users.EXTERNAL_USER_REPOSITORY 1;
   RegSingleton Users.INTERNAL_USER_USECASE 2;
   RegSingleton Users.EXTERNAL_USER_USECASE 3;
   RegSingleton Users.INTERNAL_USER_CONTROLLER 4;
   RegSingleton Users.EXTERNAL_USER_CONTROLLER 5].

(** ** The start of the users router

    The module-level statements of the router, before the routes:
<<
    initializeUserDI();
    const controller = getInternalUserController();
    const externalController = getExternalUserController();
>> *)
Module Router.

Definition CONTROLLER : cell := 1.
Definition EXTERNAL_CONTROLLER : cell := 2.

Definition init : prog :=
  Bind Users.initializeUserDI (fun _ =>
  Bind Users.getInternalUserController (fun controller =>
  Bind (WriteCell CONTROLLER controller) (fun _ =>
  Bind Users.getExternalUserController (fun externalController =>
        WriteCell EXTERNAL_CONTROLLER externalController)))).

End Router.

(** ** The users resource

    The entity and the request bodies of [src/domain/user/entity.ts] and
    [src/api/public/users/requests.ts], as the types inferred from the
    schemas.  A [number] that serves as an id is an integral number. *)

Module Company.
Record t : Type := mk { name : string }.
End Company.

Module User.
Record t : Type := mk {
  id : Z;
  name : string;
  username : string;
  email : string;
  company : Company.t;
}.
End User.

Module CreateUserBody.
Record t : Type := mk {
  name : string;
  username : string;
  email : string;
  company : Company.t;
}.
End CreateUserBody.

Module UpdateUserBody.
Record t : Type := mk {
  name : string;
  username : string;
  email : string;
  company : Company.t;
}.
End UpdateUserBody.

(** [t.Partial(t.Object({ name: t.String() }))] *)
Module PatchUserNameBody.
Record t : Type := mk { name : option string }.
End PatchUserNameBody.

(** [Number.isSafeInteger]: an integer below [2^53] in absolute value.  On
    such numbers [+ 1] is exact and a template literal prints all the
    decimal digits.  The definitions below compute on [Z]; they follow the
    code as far as the numbers involved are safe integers, and the theorems
    that depend on a sum or on a printed id say so. *)
Definition safe_integer (z : Z) : Prop := (- 2 ^ 53 < z < 2 ^ 53)%Z.

(** ** [src/domain/errors/httpErrors.ts] *)

Module HttpError.
Record t : Type := mk {
  statusCode : Z;
  message : string;
  details : value;          (* [details?: any]: [VUndefined] when not given *)
  name : string;
}.
End HttpError.

(** [new HttpError(statusCode, message, details)] and its subclasses; a
    [message] that is not given takes the default of the constructor. *)
Definition HttpError_new (statusCode : Z) (message : string) (details : value)
  : HttpError.t :=
  HttpError.mk statusCode message details "HttpError".

Definition BadRequestError (message : option string) (details : value)
  : HttpError.t :=
  HttpError.mk 400 (default "Bad Request" message) details "BadRequestError".

Definition UnauthorizedError (message : option string) (details : value)
  : HttpError.t :=
  HttpError.mk 401 (default "Unauthorized" message) details "UnauthorizedError".

Definition ForbiddenError (message : option string) (details : value)
  : HttpError.t :=
  HttpError.mk 403 (default "Forbidden" message) details "ForbiddenError".

Definition NotFoundError (message : option string) (details : value)
  : HttpError.t :=
  HttpError.mk 404 (default "Not Found" message) details "NotFoundError".

Definition InternalServerError (message : option string) (details : value)
  : HttpError.t :=
  HttpError.mk 500 (default "Internal Server Error" message) details
               "InternalServerError".

(** What an [async] method can throw: an [HttpError] or another error, of
    which only the message matters here. *)
Inductive js_error : Type :=
| IsHttpError (e : HttpError.t)
| OtherError (message : string).

(** The outcome of awaiting the promise that an [async] method returns. *)
Inductive settled (A : Type) : Type :=
| Fulfilled (a : A)
| Rejected (e : js_error).
Arguments Fulfilled {A} a.
Arguments Rejected {A} e.

(** ** [IUserRepository]

    Each method takes the repository as it is and gives what its promise
    settles to and the repository as it is afterwards. *)
Module IUserRepository.
Class t (R : Type) : Type := mk {
  findAll : R -> settled (list User.t) * R;
  findById : Z -> R -> settled (option User.t) * R;
  create : CreateUserBody.t -> R -> settled User.t * R;
  update : Z -> UpdateUserBody.t -> R -> settled User.t * R;
  patch : Z -> PatchUserNameBody.t -> R -> settled (option User.t) * R;
  delete : Z -> R -> settled bool * R;
}.
End IUserRepository.

(** [Array.prototype.findIndex], with [None] for [-1]. *)
Fixpoint findIndex {A : Type} (p : A -> bool) (l : list A) : option nat :=
  match l with
  | [] => None
  | x :: l' => if p x then Some 0 else S <$> findIndex p l'
  end.

(** [Math.max(x, ...xs)] *)
Definition Math_max (x : Z) (xs : list Z) : Z := fold_left Z.max xs x.

Definition has_id (id : Z) (u : User.t) : bool := (User.id u =? id)%Z.

(** [{ id, ...data }] *)
Definition user_of_create (id : Z) (data : CreateUserBody.t) : User.t :=
  User.mk id (CreateUserBody.name data) (CreateUserBody.username data)
          (CreateUserBody.email data) (CreateUserBody.company data).

Definition user_of_update (id : Z) (data : UpdateUserBody.t) : User.t :=
  User.mk id (UpdateUserBody.name data) (UpdateUserBody.username data)
          (UpdateUserBody.email data) (UpdateUserBody.company data).

(** [{ ...current, ...data }] *)
Definition user_patched (current : User.t) (data : PatchUserNameBody.t)
  : User.t :=
  User.mk (User.id current)
          (default (User.name current) (PatchUserNameBody.name data))
          (User.username current) (User.email current) (User.company current).

(** ** [InMemoryUserRepository] *)
Module InMemoryUserRepository.

Record t : Type := mk { users : list User.t }.

(** [private users: User[] = []] *)
Definition new : t := mk [].

Definition findAll (r : t) : settled (list User.t) * t :=
  (Fulfilled (users r), r).

Definition findById (id : Z) (r : t) : settled (option User.t) * t :=
  (Fulfilled (find (has_id id) (users r)), r).

(** [Math.max(...ids) + 1], exact while the stored ids are safe integers. *)
Definition create (data : CreateUserBody.t) (r : t) : settled User.t * t :=
  let nextId :=
    match users r with
    | [] => 1
    | u :: us => Math_max (User.id u) (User.id <$> us) + 1
    end%Z in
  let newUser := user_of_create nextId data in
  (Fulfilled newUser, mk (users r ++ [newUser])).

Definition update (id : Z) (data : UpdateUserBody.t) (r : t)
  : settled User.t * t :=
  let idx := findIndex (has_id id) (users r) in
  let updatedUser := user_of_update id data in
  match idx with
  | None => (Fulfilled updatedUser, mk (users r ++ [updatedUser]))
  | Some idx => (Fulfilled updatedUser, mk (<[idx := updatedUser]> (users r)))
  end.

Definition patch (id : Z) (data : PatchUserNameBody.t) (r : t)
  : settled (option User.t) * t :=
  match findIndex (has_id id) (users r) with
  | None => (Fulfilled None, r)
  | Some idx =>
      match users r !! idx with
      | Some current =>
          let patchedUser := user_patched current data in
          (Fulfilled (Some patchedUser), mk (<[idx := patchedUser]> (users r)))
      | None => (Fulfilled None, r)     (* no such case: [idx] is in range *)
      end
  end.

Definition delete (id : Z) (r : t) : settled bool * t :=
  match findIndex (has_id id) (users r) with
  | None => (Fulfilled false, r)
  | Some idx => (Fulfilled true, mk (base.delete idx (users r)))
  end.

#[global] Instance repository : IUserRepository.t t :=
  IUserRepository.mk t findAll findById create update patch delete.

End InMemoryUserRepository.

(** ** [MockUserRepository], the repository of the tests *)
Module MockUserRepository.

Record t : Type := mk { users : list User.t; currentId : Z }.

(** [private users: User[] = []; private currentId = 1;] *)
Definition new : t := mk [] 1.

(** [Math.max(...ids) + 1], exact while the ids of [users] are safe
    integers; the counter stays as it is for an empty array. *)
Definition setUsers (us : list User.t) (r : t) : t :=
  match us with
  | [] => mk us (currentId r)
  | u :: rest => mk us (Math_max (User.id u) (User.id <$> rest) + 1)
  end.

Definition clear (r : t) : t := mk [] 1.

Definition findAll (r : t) : settled (list User.t) * t :=
  (Fulfilled (users r), r).

Definition findById (id : Z) (r : t) : settled (option User.t) * t :=
  (Fulfilled (find (has_id id) (users r)), r).

(** [id: this.currentId++], exact while the counter is a safe integer. *)
Definition create (data : CreateUserBody.t) (r : t) : settled User.t * t :=
  let newUser := user_of_create (currentId r) data in
  (Fulfilled newUser, mk (users r ++ [newUser]) (currentId r + 1)).

Definition update (id : Z) (data : UpdateUserBody.t) (r : t)
  : settled User.t * t :=
  let idx := findIndex (has_id id) (users r) in
  let updatedUser := user_of_update id data in
  match idx with
  | None => (Fulfilled updatedUser, mk (users r ++ [updatedUser]) (currentId r))
  | Some idx =>
      (Fulfilled updatedUser,
       mk (<[idx := updatedUser]> (users r)) (currentId r))
  end.

Definition patch (id : Z) (data : PatchUserNameBody.t) (r : t)
  : settled (option User.t) * t :=
  match findIndex (has_id id) (users r) with
  | None => (Fulfilled None, r)
  | Some idx =>
      match users r !! idx with
      | Some current =>
          let patchedUser := user_patched current data in
          (Fulfilled (Some patchedUser),
           mk (<[idx := patchedUser]> (users r)) (currentId r))
      | None => (Fulfilled None, r)     (* no such case: [idx] is in range *)
      end
  end.

Definition delete (id : Z) (r : t) : settled bool * t :=
  match findIndex (has_id id) (users r) with
  | None => (Fulfilled false, r)
  | Some idx => (Fulfilled true, mk (base.delete idx (users r)) (currentId r))
  end.

Definition getUserCount (r : t) : nat := length (users r).

Definition getAllUsers (r : t) : list User.t := users r.

#[global] Instance repository : IUserRepository.t t :=
  IUserRepository.mk t findAll findById create update patch delete.

End MockUserRepository.

(** ** [UserUseCase]

    The use case holds its repository; its state is the repository's. *)
Module UserUseCase.
Section WithRepository.
Context {R : Type} `{IUserRepository.t R}.

(** [new NotFoundError(`User with id ${id} not found`)].  The template
    literal prints a safe integer with all its decimal digits, as [pretty]
    does; larger numbers are printed rounded or with an exponent, so what is
    proved about the text of the message is proved for safe integers. *)
Definition not_found (id : Z) : js_error :=
  IsHttpError
    (NotFoundError (Some ("User with id " +:+ pretty id +:+ " not found"))
                   VUndefined).

Definition getUsers (r : R) : settled (list User.t) * R :=
  IUserRepository.findAll r.

Definition getUserById (id : Z) (r : R) : settled User.t * R :=
  match IUserRepository.findById id r with
  | (Fulfilled (Some user), r') => (Fulfilled user, r')
  | (Fulfilled None, r') => (Rejected (not_found id), r')
  | (Rejected e, r') => (Rejected e, r')
  end.

Definition createUser (data : CreateUserBody.t) (r : R) : settled User.t * R :=
  IUserRepository.create data r.

Definition updateUser (id : Z) (data : UpdateUserBody.t) (r : R)
  : settled User.t * R :=
  IUserRepository.update id data r.

Definition patchUser (id : Z) (data : PatchUserNameBody.t) (r : R)
  : settled User.t * R :=
  match IUserRepository.patch id data r with
  | (Fulfilled (Some user), r') => (Fulfilled user, r')
  | (Fulfilled None, r') => (Rejected (not_found id), r')
  | (Rejected e, r') => (Rejected e, r')
  end.

Definition deleteUser (id : Z) (r : R) : settled unit * R :=
  match IUserRepository.delete id r with
  | (Fulfilled true, r') => (Fulfilled tt, r')
  | (Fulfilled false, r') => (Rejected (not_found id), r')
  | (Rejected e, r') => (Rejected e, r')
  end.

End WithRepository.
End UserUseCase.

(** ** [UserController]: each method awaits the use case's. *)
Module UserController.
Section WithRepository.
Context {R : Type} `{IUserRepository.t R}.

Definition getUsers (r : R) : settled (list User.t) * R :=
  UserUseCase.getUsers r.

Definition getUserById (id : Z) (r : R) : settled User.t * R :=
  UserUseCase.getUserById id r.

Definition createUser (body : CreateUserBody.t) (r : R) : settled User.t * R :=
  UserUseCase.createUser body r.

Definition updateUser (id : Z) (body : UpdateUserBody.t) (r : R)
  : settled User.t * R :=
  UserUseCase.updateUser id body r.

Definition patchUser (id : Z) (body : PatchUserNameBody.t) (r : R)
  : settled User.t * R :=
  UserUseCase.patchUser id body r.

Definition deleteUser (id : Z) (r : R) : settled unit * R :=
  UserUseCase.deleteUser id r.

End WithRepository.
End UserController.

(** ** The error handlers

    [errorHandler] of [src/api/middleware/errorHandler.ts] and the handler
    that [createTestApp] installs.  The framework gives the handler a code
    and the error; the handler sets the status and returns the body. *)
Module ErrorResponse.
Record t : Type := mk {
  error : string;
  message : string;
  statusCode : Z;
  details : option value;
}.
End ErrorResponse.

Record handled : Type := mkHandled {
  status : Z;                  (* set.status *)
  body : ErrorResponse.t;      (* the value returned *)
  logged : bool;               (* whether console.error was called *)
}.

(** [errorHandler], the handler of the application. *)
Definition errorHandler (code : string) (e : js_error) : handled :=
  match e with
  | IsHttpError h =>
      mkHandled (HttpError.statusCode h)
        (ErrorResponse.mk (HttpError.name h) (HttpError.message h)
           (HttpError.statusCode h)
           (if to_boolean (HttpError.details h)
            then Some (HttpError.details h) else None))
        false
  | OtherError m =>
      if String.eqb code "VALIDATION" then
        mkHandled 400
          (ErrorResponse.mk "ValidationError" "Validation failed" 400
             (Some (VStr m)))
          false
      else if String.eqb code "NOT_FOUND" then
        mkHandled 404
          (ErrorResponse.mk "NotFound" "Route not found" 404 None) false
      else if String.eqb code "PARSE" then
        mkHandled 400
          (ErrorResponse.mk "ParseError" "Failed to parse request" 400 None)
          false
      else
        mkHandled 500
          (ErrorResponse.mk "InternalServerError"
             "An unexpected error occurred" 500 None)
          true
  end.

(** The handler that [createTestApp] of [test/helpers/createTestApp.ts]
    installs. *)
Definition createTestApp_onError (code : string) (e : js_error) : handled :=
  match e with
  | IsHttpError h =>
      mkHandled (HttpError.statusCode h)
        (ErrorResponse.mk (HttpError.name h) (HttpError.message h)
           (HttpError.statusCode h)
           (if to_boolean (HttpError.details h)
            then Some (HttpError.details h) else None))
        false
  | OtherError m =>
      if String.eqb code "VALIDATION" then
        mkHandled 422
          (ErrorResponse.mk "ValidationError" "Validation failed" 422
             (Some (VStr m)))
          false
      else if String.eqb code "NOT_FOUND" then
        mkHandled 404
          (ErrorResponse.mk "NotFound" "Route not found" 404 None) false
      else if String.eqb code "PARSE" then
        mkHandled 400
          (ErrorResponse.mk "ParseError" "Failed to parse request" 400 None)
          false
      else
        mkHandled 500
          (ErrorResponse.mk "InternalServerError"
             "An unexpected error occurred" 500 None)
          true
  end.

Definition ids (us : list User.t) : list Z := User.id <$> us.

(** Every id in the mock lies below its counter. *)
Definition ids_below (r : MockUserRepository.t) : Prop :=
  forall v, v ∈ MockUserRepository.users r ->
            (User.id v < MockUserRepository.currentId r)%Z.

(** ** Data and functions used to run the definitions *)

(** Two singletons whose factories resolve each other. *)
Module Circular.

Definition closures (f : fid) : prog :=
  match f with
  | 0 => Bind (CallGetSingleton "B") (fun _ => NewObject)
  | 1 => Bind (CallGetSingleton "A") (fun _ => NewObject)
  | _ => Ret VUndefined
  end.

Definition wired : state :=
  register_all [RegSingleton "A" 0; RegSingleton "B" 1] initial.

End Circular.

(** Factories that call the container on their own key.  With
    [let entered = false;] and the key ["self"]:
<<
    () => { if (entered) return {};
            entered = true; container.getSingleton("self");
            throw new Error("boom"); }
    () => { if (entered) return {};
            entered = true; container.getSingleton("self");
            return {}; }
    () => { container.reset(); throw new Error("boom"); }
>> *)
Module Reentrant.

Definition ENTERED : cell := 0.
Definition THROWS_AFTER : fid := 0.
Definition BUILDS_AFTER : fid := 1.
Definition RESETS_FIRST : fid := 2.

Definition closures (f : fid) : prog :=
  match f with
  | 0 => Bind (ReadCell ENTERED) (fun entered =>
         if to_boolean entered then NewObject
         else Bind (WriteCell ENTERED (VBool true)) (fun _ =>
              Bind (CallGetSingleton "self") (fun _ =>
                    Throw (Error "boom"))))
  | 1 => Bind (ReadCell ENTERED) (fun entered =>
         if to_boolean entered then NewObject
         else Bind (WriteCell ENTERED (VBool true)) (fun _ =>
              Bind (CallGetSingleton "self") (fun _ => NewObject)))
  | 2 => Bind CallReset (fun _ => Throw (Error "boom"))
  | _ => Ret VUndefined
  end.

(** The state after [let entered = false;]. *)
Definition start : state := set_cell ENTERED (VBool false) initial.

End Reentrant.

(** [sampleUsers] of [test/users.test.ts] and a request body. *)
Module Sample.

Definition user1 : User.t :=
  User.mk 1 "Test User 1" "testuser1" "test1@example.com"
          (Company.mk "Test Company 1").

Definition user2 : User.t :=
  User.mk 2 "Test User 2" "testuser2" "test2@example.com"
          (Company.mk "Test Company 2").

Definition sampleUsers : list User.t := [user1; user2].

Definition newUser : CreateUserBody.t :=
  CreateUserBody.mk "New User" "newuser" "new@example.com"
                    (Company.mk "New Company").

Definition updatedUser : UpdateUserBody.t :=
  UpdateUserBody.mk "Updated User" "updateduser" "updated@example.com"
                    (Company.mk "Updated Company").

Definition rename : PatchUserNameBody.t :=
  PatchUserNameBody.mk (Some "Patched Name").

Definition repository : InMemoryUserRepository.t :=
  InMemoryUserRepository.mk sampleUsers.

End Sample.

(** ** Tactics for the projections of a state *)

Ltac projections :=
  cbn [singletons factories heap next_loc next_obj cells invocations
       record_call new_object write_instance set_heap set_singletons
       set_factories set_cell fst snd factory instance read_instance].

Ltac projections_in H :=
  cbn [singletons factories heap next_loc next_obj cells invocations
       record_call new_object write_instance set_heap set_singletons
       set_factories set_cell fst snd factory instance read_instance] in H.

(** * Properties *)

(** ** Unfolding the methods *)

Section Equations.

Variable code : fid -> prog.

Lemma getSingleton_absent fuel key st :
  singletons st !! key = None ->
  getSingleton code fuel key st
  = (Threw (Error ("Singleton not registered: " +:+ key)), st).
Proof. intros H. unfold getSingleton, getSingleton_with. by rewrite H. Qed.

Lemma getFactory_absent fuel key st :
  factories st !! key = None ->
  getFactory code fuel key st
  = (Threw (Error ("Factory not registered: " +:+ key)), st).
Proof. intros H. unfold getFactory, getFactory_with. by rewrite H. Qed.

Lemma getFactory_present fuel key f st :
  factories st !! key = Some f ->
  getFactory code fuel key st = invoke code fuel f st.
Proof. intros H. unfold getFactory, getFactory_with. by rewrite H. Qed.

(** A truthy [instance] is returned as it is and nothing else happens. *)
Lemma getSingleton_cached fuel key l s st :
  singletons st !! key = Some l ->
  heap st !! l = Some s ->
  to_boolean (read_instance s) = true ->
  getSingleton code fuel key st = (Returned (read_instance s), st).
Proof.
  intros Hk Hl Ht. unfold getSingleton, getSingleton_with.
  by rewrite Hk, Hl, Ht.
Qed.

(** A falsy [instance] makes the method call the factory; a returned value
    is assigned to the record, anything else passes through. *)
Lemma getSingleton_construct fuel key l s st :
  singletons st !! key = Some l ->
  heap st !! l = Some s ->
  to_boolean (read_instance s) = false ->
  getSingleton code fuel key st
  = match invoke code fuel (factory s) st with
    | (Returned v, st') => (Returned v, write_instance l (factory s) v st')
    | r => r
    end.
Proof.
  intros Hk Hl Ht. unfold getSingleton, getSingleton_with.
  rewrite Hk, Hl, Ht. simpl.
  by destruct (invoke code fuel (factory s) st) as [[] ?].
Qed.

Lemma registerSingleton_spec key f st :
  registerSingleton key f st
  = (Returned VUndefined,
     mkState (<[key := next_loc st]> (singletons st)) (factories st)
             (<[next_loc st := mkSingleton None f]> (heap st))
             (S (next_loc st)) (next_obj st) (cells st) (invocations st)).
Proof. reflexivity. Qed.

Lemma registerSingleton_lookup key f st :
  singletons (registerSingleton key f st).2 !! key = Some (next_loc st)
  /\ heap (registerSingleton key f st).2 !! next_loc st
     = Some (mkSingleton None f).
Proof. simpl. by rewrite !lookup_insert_eq. Qed.

(** Resolving right after a registration calls the factory just stored. *)
Lemma register_then_getSingleton fuel key f st :
  getSingleton code fuel key (registerSingleton key f st).2
  = match invoke code fuel f (registerSingleton key f st).2 with
    | (Returned v, st') => (Returned v, write_instance (next_loc st) f v st')
    | r => r
    end.
Proof.
  destruct (registerSingleton_lookup key f st) as [Hk Hl].
  by rewrite (getSingleton_construct fuel key _ _ _ Hk Hl eq_refl).
Qed.

Lemma register_then_getFactory fuel key f st :
  getFactory code fuel key (registerFactory key f st).2
  = invoke code fuel f (registerFactory key f st).2.
Proof.
  apply getFactory_present. simpl. by rewrite lookup_insert_eq.
Qed.

Lemma reset_spec st :
  reset st
  = (Returned VUndefined,
     mkState ∅ ∅ (heap st) (next_loc st) (next_obj st) (cells st)
             (invocations st)).
Proof. reflexivity. Qed.

End Equations.

(** ** The nesting bound

    A run that ends within a bound ends the same way within any larger one:
    the bound decides only whether a result is reached. *)

Lemma exec_with_mono (call1 call2 : fid -> M) :
  (forall f st o st', call1 f st = (o, st') -> finished o ->
                      call2 f st = (o, st')) ->
  forall p st o st', exec_with call1 p st = (o, st') -> finished o ->
                     exec_with call2 p st = (o, st').
Proof.
  intros Hcall. induction p as [v|e|p IHp k IHk|p IHp h IHh| |c|c v|key f|key f|key|key|];
    intros st o st' Hrun Hfin; simpl in *; try done.
  - destruct (exec_with call1 p st) as [o1 st1] eqn:E1.
    destruct o1 as [v|e| |].
    + rewrite (IHp _ _ _ E1) by done. by apply IHk.
    + inversion Hrun; subst. by rewrite (IHp _ _ _ E1).
    + inversion Hrun; subst. by rewrite (IHp _ _ _ E1).
    + inversion Hrun; subst. by rewrite (IHp _ _ _ E1).
  - destruct (exec_with call1 p st) as [o1 st1] eqn:E1.
    destruct o1 as [v|e| |].
    + inversion Hrun; subst. by rewrite (IHp _ _ _ E1).
    + rewrite (IHp _ _ _ E1) by done. by apply IHh.
    + inversion Hrun; subst. by rewrite (IHp _ _ _ E1).
    + inversion Hrun; subst. by rewrite (IHp _ _ _ E1).
  - unfold getSingleton_with in *.
    destruct (singletons st !! key) as [l|]; [|done].
    destruct (heap st !! l) as [s|]; [|done].
    destruct (negb (to_boolean (read_instance s))); [|done].
    destruct (call1 (factory s) st) as [o1 st1] eqn:E1.
    destruct o1; inversion Hrun; subst; by rewrite (Hcall _ _ _ _ E1).
  - unfold getFactory_with in *.
    destruct (factories st !! key) as [f|]; [|done].
    by apply Hcall.
Qed.

Lemma invoke_step (code : fid -> prog) n f st o st' :
  invoke code n f st = (o, st') -> finished o ->
  invoke code (S n) f st = (o, st').
Proof.
  revert f st o st'. induction n as [|n IH]; intros f st o st' Hrun Hfin.
  - simpl in Hrun. inversion Hrun; subst. by destruct Hfin.
  - change (exec_with (invoke code (S n)) (code f) (record_call f st)
            = (o, st')).
    change (exec_with (invoke code n) (code f) (record_call f st)
            = (o, st')) in Hrun.
    by eapply exec_with_mono.
Qed.

Lemma invoke_mono (code : fid -> prog) n m f st o st' :
  n <= m -> invoke code n f st = (o, st') -> finished o ->
  invoke code m f st = (o, st').
Proof.
  induction 1 as [|m Hle IH]; intros Hrun Hfin; [done|].
  apply invoke_step; [by apply IH | done].
Qed.

Lemma exec_mono (code : fid -> prog) n m p st o st' :
  n <= m -> exec code n p st = (o, st') -> finished o ->
  exec code m p st = (o, st').
Proof.
  intros Hle. unfold exec. apply exec_with_mono.
  intros f s o1 s1. by apply invoke_mono.
Qed.

Lemma getSingleton_mono (code : fid -> prog) n m key st o st' :
  n <= m -> getSingleton code n key st = (o, st') -> finished o ->
  getSingleton code m key st = (o, st').
Proof. apply (exec_mono code n m (CallGetSingleton key)). Qed.

Lemma getFactory_mono (code : fid -> prog) n m key st o st' :
  n <= m -> getFactory code n key st = (o, st') -> finished o ->
  getFactory code m key st = (o, st').
Proof. apply (exec_mono code n m (CallGetFactory key)). Qed.

(** ** Well-formed states

    From a well-formed state every run ends in a well-formed state, keeps
    every record and its [factory], and never finds a dangling reference.
    This is what makes [write_instance] the assignment
    [singleton.instance = v]: the record looked up before the factory ran is
    still there, with the same [factory], when the factory returns. *)

Lemma heap_extends_refl st : heap_extends st st.
Proof. intros l s H. eauto. Qed.

Lemma heap_extends_trans st1 st2 st3 :
  heap_extends st1 st2 -> heap_extends st2 st3 -> heap_extends st1 st3.
Proof.
  intros H12 H23 l s H.
  destruct (H12 _ _ H) as (s2 & H2 & E2).
  destruct (H23 _ _ H2) as (s3 & H3 & E3).
  exists s3. split; [done | congruence].
Qed.

Lemma sound_run_same_heap st o st' :
  heap st' = heap st -> next_loc st' = next_loc st ->
  (singletons st' = singletons st \/ singletons st' = ∅) ->
  o <> Stuck ->
  sound_run st (o, st').
Proof.
  intros Hh Hn Hs Ho [Hfresh Hrefs]. simpl. split; [split|split].
  - intros l. rewrite Hh, Hn. apply Hfresh.
  - intros key l. rewrite Hh. destruct Hs as [-> | ->].
    + apply Hrefs.
    + by rewrite lookup_empty.
  - intros l s. rewrite Hh. eauto.
  - done.
Qed.

Lemma sound_run_seq st o1 st1 r :
  sound_run st (o1, st1) -> sound_run st1 r -> sound_run st r.
Proof.
  intros H1 H2 Hwf. destruct (H1 Hwf) as (Hwf1 & Hext1 & _).
  destruct (H2 Hwf1) as (Hwf2 & Hext2 & Ho). simpl in *.
  split; [done|]. split; [|done]. by eapply heap_extends_trans.
Qed.

Lemma initial_well_formed : well_formed initial.
Proof.
  split.
  - intros l [s Hs]. simpl in Hs. by rewrite lookup_empty in Hs.
  - intros key l Hs. simpl in Hs. by rewrite lookup_empty in Hs.
Qed.

Lemma registerSingleton_sound key f st :
  sound_run st (registerSingleton key f st).
Proof.
  rewrite registerSingleton_spec.
  intros [Hfresh Hrefs]. simpl. split; [split|split]; simpl.
  - intros l Hl. apply lookup_insert_is_Some in Hl as [<-|[_ Hl]].
    + lia.
    + apply Hfresh in Hl. lia.
  - intros k l Hk. apply lookup_insert_is_Some.
    destruct (decide (next_loc st = l)) as [|Hne]; [by left|right].
    split; [done|].
    destruct (decide (key = k)) as [->|Hk'].
    + rewrite lookup_insert_eq in Hk. congruence.
    + rewrite lookup_insert_ne in Hk by done. by eapply Hrefs.
  - intros l s Hl. exists s. simpl. split; [|done].
    rewrite lookup_insert_ne; [done|].
    intros <-. assert (next_loc st < next_loc st); [|lia].
    apply Hfresh. eauto.
  - done.
Qed.

Lemma write_instance_sound l s v st :
  heap st !! l = Some s ->
  sound_run st (Returned v, write_instance l (factory s) v st).
Proof.
  intros Hl [Hfresh Hrefs]. unfold write_instance, set_heap.
  simpl. split; [split|split]; simpl.
  - intros l' Hl'. apply lookup_insert_is_Some in Hl' as [<-|[_ Hl']].
    + apply Hfresh. eauto.
    + by apply Hfresh.
  - intros key l' Hk. apply lookup_insert_is_Some'. right. by eapply Hrefs.
  - intros l' s' Hl'. simpl. destruct (decide (l = l')) as [<-|Hne].
    + rewrite lookup_insert_eq. eexists. split; [done|]. simpl. congruence.
    + rewrite lookup_insert_ne by done. eauto.
  - done.
Qed.

Lemma getSingleton_with_sound (call : fid -> M) key st :
  (forall f s, sound_run s (call f s)) ->
  sound_run st (getSingleton_with call key st).
Proof.
  intros Hcall. unfold getSingleton_with.
  destruct (singletons st !! key) as [l|] eqn:Hk;
    [|by apply sound_run_same_heap; auto].
  destruct (heap st !! l) as [s|] eqn:Hl.
  - destruct (negb (to_boolean (read_instance s)));
      [|by apply sound_run_same_heap; auto].
    pose proof (Hcall (factory s) st) as Hrun.
    destruct (call (factory s) st) as [o st'].
    destruct o as [v|e| |]; try done.
    intros Hwf. destruct (Hrun Hwf) as (Hwf' & Hext & _). simpl in *.
    destruct (Hext _ _ Hl) as (s' & Hl' & Hf).
    rewrite <- Hf.
    destruct (write_instance_sound l s' v st' Hl' Hwf') as (Hwf2 & Hext2 & _).
    simpl in *. split; [done|]. split; [|done].
    by eapply heap_extends_trans.
  - intros [_ Hrefs]. apply Hrefs in Hk as [s Hs]. congruence.
Qed.

Lemma exec_with_sound (call : fid -> M) :
  (forall f s, sound_run s (call f s)) ->
  forall p st, sound_run st (exec_with call p st).
Proof.
  intros Hcall.
  induction p as [v|e|p IHp k IHk|p IHp h IHh| |c|c v|key f|key f|key|key|]; intros st;
    simpl exec_with.
  - by apply sound_run_same_heap; auto.
  - by apply sound_run_same_heap; auto.
  - pose proof (IHp st) as H1.
    destruct (exec_with call p st) as [o1 st1].
    destruct o1 as [v|e| |]; try done.
    eapply sound_run_seq; [exact H1 | apply IHk].
  - pose proof (IHp st) as H1.
    destruct (exec_with call p st) as [o1 st1].
    destruct o1 as [v|e| |]; try done.
    eapply sound_run_seq; [exact H1 | apply IHh].
  - by apply sound_run_same_heap; auto.
  - by apply sound_run_same_heap; auto.
  - by apply sound_run_same_heap; auto.
  - apply registerSingleton_sound.
  - by apply sound_run_same_heap; auto.
  - by apply getSingleton_with_sound.
  - unfold getFactory_with. destruct (factories st !! key) as [f|].
    + apply Hcall.
    + by apply sound_run_same_heap; auto.
  - by apply sound_run_same_heap; auto.
Qed.

Lemma invoke_sound (code : fid -> prog) fuel f st :
  sound_run st (invoke code fuel f st).
Proof.
  revert f st. induction fuel as [|n IH]; intros f st; simpl.
  - by apply sound_run_same_heap; auto.
  - eapply (sound_run_seq st (Returned VUndefined) (record_call f st)).
    + by apply sound_run_same_heap; auto.
    + by apply exec_with_sound.
Qed.

Lemma exec_sound (code : fid -> prog) fuel p st :
  sound_run st (exec code fuel p st).
Proof. apply exec_with_sound. intros f s. apply invoke_sound. Qed.

(** A script started in the initial state never meets a dangling reference,
    and neither does anything run in the state it reaches. *)
Corollary exec_initial_not_stuck (code : fid -> prog) fuel p fuel' q :
  (exec code fuel p initial).1 <> Stuck
  /\ (exec code fuel' q (exec code fuel p initial).2).1 <> Stuck.
Proof.
  destruct (exec_sound code fuel p initial initial_well_formed)
    as (Hwf & _ & Hp).
  split; [done|].
  by destruct (exec_sound code fuel' q _ Hwf) as (_ & _ & Hq).
Qed.


Lemma write_instance_assign l s v st :
  heap st !! l = Some s ->
  write_instance l (factory s) v st = assign_instance l v st.
Proof.
  intros Hl. unfold write_instance, assign_instance. f_equal.
  apply map_eq. intros i. destruct (decide (i = l)) as [->|Hne].
  - by rewrite lookup_insert_eq, lookup_alter_eq, Hl.
  - by rewrite lookup_insert_ne, lookup_alter_ne.
Qed.

(** In a well-formed state the write that ends a constructing
    [getSingleton] is the assignment to the record that was looked up before
    the factory ran. *)
Lemma getSingleton_assigns_in_place (code : fid -> prog) fuel l s st v st' :
  well_formed st ->
  heap st !! l = Some s ->
  invoke code fuel (factory s) st = (Returned v, st') ->
  write_instance l (factory s) v st' = assign_instance l v st'.
Proof.
  intros Hwf Hl Hrun.
  pose proof (invoke_sound code fuel (factory s) st Hwf) as (_ & Hext & _).
  rewrite Hrun in Hext. simpl in Hext.
  destruct (Hext _ _ Hl) as (s' & Hl' & <-).
  by apply write_instance_assign.
Qed.

(** ** Programs that do not call the container

    Such a program reads and writes objects and captured variables only: run
    on another container it ends the same way and leaves that container as
    it found it.  The factories of the repositories in [users.ts] are of this
    kind. *)

Lemma with_world_same st : with_world st st = st.
Proof. by destruct st. Qed.

Lemma container_free_exec (call1 call2 : fid -> M) p :
  container_free p ->
  forall st o st' st2,
    exec_with call1 p st = (o, st') ->
    exec_with call2 p (with_world st st2) = (o, with_world st' st2).
Proof.
  induction p as [v|e|p IHp k IHk|p IHp h IHh| |c|c v|key f|key f|key|key|];
    intros Hfree st o st' st2 Hrun; simpl in *; try done.
  - by inversion Hrun.
  - by inversion Hrun.
  - destruct Hfree as [Hp Hk].
    destruct (exec_with call1 p st) as [o1 st1] eqn:E1.
    rewrite (IHp Hp _ _ _ st2 E1).
    destruct o1; try by inversion Hrun. by apply IHk.
  - destruct Hfree as [Hp Hh].
    destruct (exec_with call1 p st) as [o1 st1] eqn:E1.
    rewrite (IHp Hp _ _ _ st2 E1).
    destruct o1; try by inversion Hrun. by apply IHh.
  - by inversion Hrun.
  - by inversion Hrun.
  - by inversion Hrun.
Qed.

(** The result does not depend on how functions are called. *)
Lemma container_free_any_call (call1 call2 : fid -> M) p st :
  container_free p ->
  exec_with call2 p st = exec_with call1 p st.
Proof.
  intros Hfree. destruct (exec_with call1 p st) as [o st'] eqn:E.
  pose proof (container_free_exec call1 call2 p Hfree st o st' st E) as H.
  rewrite with_world_same in H. rewrite H. f_equal.
  pose proof (container_free_exec call1 call1 p Hfree st o st' st E) as H'.
  rewrite with_world_same in H'. congruence.
Qed.

Lemma container_free_frame (call : fid -> M) p st o st' :
  container_free p ->
  exec_with call p st = (o, st') ->
  with_world st' st = st'.
Proof.
  intros Hfree Hrun.
  pose proof (container_free_exec call call p Hfree st o st' st Hrun) as H.
  rewrite with_world_same in H. congruence.
Qed.

Lemma container_free_finishes (call : fid -> M) p st :
  container_free p ->
  finished (exec_with call p st).1 /\ (exec_with call p st).1 <> Stuck.
Proof.
  revert st.
  induction p as [v|e|p IHp k IHk|p IHp h IHh| |c|c v|key f|key f|key|key|];
    intros st Hfree; simpl in *; try done.
  - destruct Hfree as [Hp Hk]. specialize (IHp st Hp).
    destruct (exec_with call p st) as [o1 st1].
    destruct o1; try done. by apply IHk.
  - destruct Hfree as [Hp Hh]. specialize (IHp st Hp).
    destruct (exec_with call p st) as [o1 st1].
    destruct o1; try done. by apply IHh.
Qed.

(** Invoking a function whose body does not call the container: one entry
    in the log, and the container otherwise untouched. *)
Lemma invoke_container_free (code : fid -> prog) n f st o st' :
  container_free (code f) ->
  invoke code (S n) f st = (o, st') ->
  singletons st' = singletons st /\ factories st' = factories st
  /\ heap st' = heap st /\ next_loc st' = next_loc st
  /\ invocations st' = f :: invocations st.
Proof.
  intros Hfree Hrun. simpl in Hrun.
  apply container_free_frame in Hrun; [|done].
  rewrite <- Hrun. by repeat split.
Qed.

(** ** What grows along every run

    A reflexive and transitive relation that each elementary change of the
    state respects is respected by every run. *)

Section Preorder.

Variable R : state -> state -> Prop.
Hypothesis R_refl : forall st, R st st.
Hypothesis R_trans : forall a b c, R a b -> R b c -> R a c.
Hypothesis R_new_object : forall st, R st (new_object st).2.
Hypothesis R_set_cell : forall c v st, R st (set_cell c v st).
Hypothesis R_record_call : forall f st, R st (record_call f st).
Hypothesis R_registerSingleton : forall k f st, R st (registerSingleton k f st).2.
Hypothesis R_registerFactory : forall k f st, R st (registerFactory k f st).2.
Hypothesis R_reset : forall st, R st (reset st).2.
Hypothesis R_write_instance : forall l f v st, R st (write_instance l f v st).

Lemma exec_with_respects (call : fid -> M) :
  (forall f st, R st (call f st).2) ->
  forall p st, R st (exec_with call p st).2.
Proof using All.
  intros Hcall.
  induction p as [v|e|p IHp k IHk|p IHp h IHh| |c|c v|key f|key f|key|key|];
    intros st; simpl exec_with.
  - apply R_refl.
  - apply R_refl.
  - specialize (IHp st). destruct (exec_with call p st) as [o1 st1].
    destruct o1; auto. eapply R_trans; [exact IHp | apply IHk].
  - specialize (IHp st). destruct (exec_with call p st) as [o1 st1].
    destruct o1; auto. eapply R_trans; [exact IHp | apply IHh].
  - apply R_new_object.
  - apply R_refl.
  - apply R_set_cell.
  - apply R_registerSingleton.
  - apply R_registerFactory.
  - unfold getSingleton_with.
    destruct (singletons st !! key) as [l|]; [|apply R_refl].
    destruct (heap st !! l) as [s|]; [|apply R_refl].
    destruct (negb (to_boolean (read_instance s))); [|apply R_refl].
    specialize (Hcall (factory s) st).
    destruct (call (factory s) st) as [o1 st1].
    destruct o1; auto. eapply R_trans; [exact Hcall | apply R_write_instance].
  - unfold getFactory_with.
    destruct (factories st !! key) as [f|]; [apply Hcall | apply R_refl].
  - apply R_reset.
Qed.

Lemma invoke_respects (code : fid -> prog) fuel f st :
  R st (invoke code fuel f st).2.
Proof using All.
  revert f st. induction fuel as [|n IH]; intros f st; simpl; [apply R_refl|].
  eapply R_trans; [apply R_record_call|].
  by apply exec_with_respects.
Qed.

Lemma exec_respects (code : fid -> prog) fuel p st :
  R st (exec code fuel p st).2.
Proof using All.
  apply exec_with_respects. intros f s. apply invoke_respects.
Qed.

End Preorder.

(** Object references are handed out in increasing order. *)
Lemma invoke_next_obj (code : fid -> prog) fuel f st :
  next_obj st <= next_obj (invoke code fuel f st).2.
Proof.
  apply (invoke_respects (fun a b => next_obj a <= next_obj b));
    simpl; intros; lia.
Qed.

Lemma exec_next_obj (code : fid -> prog) fuel p st :
  next_obj st <= next_obj (exec code fuel p st).2.
Proof.
  apply (exec_respects (fun a b => next_obj a <= next_obj b));
    simpl; intros; lia.
Qed.

(** The log of invocations only grows, so no count ever decreases. *)
Lemma invoke_calls (code : fid -> prog) g fuel f st :
  calls g st <= calls g (invoke code fuel f st).2.
Proof.
  apply (invoke_respects (fun a b => calls g a <= calls g b));
    unfold calls; simpl; intros; try lia.
  destruct (Nat.eq_dec f0 g); lia.
Qed.

Lemma exec_calls (code : fid -> prog) g fuel p st :
  calls g st <= calls g (exec code fuel p st).2.
Proof.
  apply (exec_respects (fun a b => calls g a <= calls g b));
    unfold calls; simpl; intros; try lia.
  destruct (Nat.eq_dec f g); lia.
Qed.

Lemma calls_record_call f st : calls f (record_call f st) = S (calls f st).
Proof. unfold calls. simpl. by destruct (Nat.eq_dec f f). Qed.

(** ** Resolving a key that is not registered *)

Section Unregistered.

Variable code : fid -> prog.

(** C3: a key without a registration in the singleton namespace makes
    [getSingleton] throw an [Error] whose message is
    ["Singleton not registered: "] followed by the key, and a key without a
    registration in the factory namespace makes [getFactory] throw an [Error]
    whose message is ["Factory not registered: "] followed by the key; no
    value is returned and no factory is called (the nesting bound plays no
    part).  After [reset] this is the case of every key. *)
Theorem unregistered_key_throws (fuel : nat) (key : string) (st : state) :
  (singletons st !! key = None ->
   getSingleton code fuel key st
   = (Threw (Error ("Singleton not registered: " +:+ key)), st))
  /\ (factories st !! key = None ->
      getFactory code fuel key st
      = (Threw (Error ("Factory not registered: " +:+ key)), st))
  /\ getSingleton code fuel key (reset st).2
     = (Threw (Error ("Singleton not registered: " +:+ key)), (reset st).2)
  /\ getFactory code fuel key (reset st).2
     = (Threw (Error ("Factory not registered: " +:+ key)), (reset st).2).
Proof.
  split; [apply getSingleton_absent|].
  split; [apply getFactory_absent|].
  split.
  - apply getSingleton_absent. simpl. apply lookup_empty.
  - apply getFactory_absent. simpl. apply lookup_empty.
Qed.

End Unregistered.

Lemma unregistered_key_throws_witness :
  getSingleton Scenario.closures 0 "nonexistent" initial
  = (Threw (Error "Singleton not registered: nonexistent"), initial)
  /\ getFactory Scenario.closures 0 "nonexistent" initial
     = (Threw (Error "Factory not registered: nonexistent"), initial).
Proof.
  destruct (unregistered_key_throws Scenario.closures 0 "nonexistent" initial)
    as (Hs & Hf & _).
  split; [apply Hs | apply Hf]; reflexivity.
Defined.

(** ** Reset *)

Lemma reset_singletons st : singletons (reset st).2 = ∅.
Proof. reflexivity. Qed.

Lemma reset_factories st : factories (reset st).2 = ∅.
Proof. reflexivity. Qed.

(** C9: [reset] after [reset] returns normally and leaves exactly the state
    that one [reset] leaves, in which both maps are empty; the same holds of
    the two calls run as a script. *)
Theorem reset_idempotent (code : fid -> prog) (fuel : nat) (st : state) :
  reset (reset st).2 = (Returned VUndefined, (reset st).2)
  /\ singletons (reset st).2 = ∅
  /\ factories (reset st).2 = ∅
  /\ exec code fuel (Bind CallReset (fun _ => CallReset)) st
     = exec code fuel CallReset st.
Proof. repeat split. Qed.

(** Registrations only add keys. *)
Lemma register_keeps_singleton r key st :
  is_Some (singletons st !! key) ->
  is_Some (singletons (register r st).2 !! key).
Proof.
  intros H. destruct r as [k f|k f]; simpl; [|done].
  destruct (decide (k = key)) as [->|Hne].
  - rewrite lookup_insert_eq. eauto.
  - by rewrite lookup_insert_ne.
Qed.

Lemma register_keeps_factory r key st :
  is_Some (factories st !! key) ->
  is_Some (factories (register r st).2 !! key).
Proof.
  intros H. destruct r as [k f|k f]; simpl; [done|].
  destruct (decide (k = key)) as [->|Hne].
  - rewrite lookup_insert_eq. eauto.
  - by rewrite lookup_insert_ne.
Qed.

Lemma register_all_keeps_singleton rs key st :
  is_Some (singletons st !! key) ->
  is_Some (singletons (register_all rs st) !! key).
Proof.
  revert st. induction rs as [|r rs IH]; intros st H; simpl; [done|].
  apply IH. by apply register_keeps_singleton.
Qed.

Lemma register_all_keeps_factory rs key st :
  is_Some (factories st !! key) ->
  is_Some (factories (register_all rs st) !! key).
Proof.
  revert st. induction rs as [|r rs IH]; intros st H; simpl; [done|].
  apply IH. by apply register_keeps_factory.
Qed.

Lemma register_all_singleton_present rs key f st :
  RegSingleton key f ∈ rs ->
  is_Some (singletons (register_all rs st) !! key).
Proof.
  revert st. induction rs as [|r rs IH]; intros st Hin.
  - by apply not_elem_of_nil in Hin.
  - apply elem_of_cons in Hin as [<-|Hin]; simpl.
    + apply register_all_keeps_singleton. simpl.
      rewrite lookup_insert_eq. eauto.
    + by apply IH.
Qed.

Lemma register_all_factory_present rs key f st :
  RegFactory key f ∈ rs ->
  is_Some (factories (register_all rs st) !! key).
Proof.
  revert st. induction rs as [|r rs IH]; intros st Hin.
  - by apply not_elem_of_nil in Hin.
  - apply elem_of_cons in Hin as [<-|Hin]; simpl.
    + apply register_all_keeps_factory. simpl.
      rewrite lookup_insert_eq. eauto.
    + by apply IH.
Qed.

(** C7: let [rs] be any sequence of registrations, run from any state.  Each
    key it registers is present in its namespace afterwards; after one
    [reset] both maps are empty and resolving any key, so any of the
    registered ones, through [getSingleton] or [getFactory] throws the
    not-registered error. *)
Theorem reset_clears_all (code : fid -> prog) (rs : list registration)
    (st0 : state) (fuel : nat) (key : string) :
  let st := register_all rs st0 in
  ((exists f, RegSingleton key f ∈ rs) -> is_Some (singletons st !! key))
  /\ ((exists f, RegFactory key f ∈ rs) -> is_Some (factories st !! key))
  /\ singletons (reset st).2 = ∅
  /\ factories (reset st).2 = ∅
  /\ getSingleton code fuel key (reset st).2
     = (Threw (Error ("Singleton not registered: " +:+ key)), (reset st).2)
  /\ getFactory code fuel key (reset st).2
     = (Threw (Error ("Factory not registered: " +:+ key)), (reset st).2).
Proof.
  intros st. split; [|split].
  - intros [f Hf]. by eapply register_all_singleton_present.
  - intros [f Hf]. by eapply register_all_factory_present.
  - split; [apply reset_singletons|].
    split; [apply reset_factories|].
    split.
    + apply getSingleton_absent. by rewrite reset_singletons.
    + apply getFactory_absent. by rewrite reset_factories.
Qed.

Lemma reset_clears_all_witness :
  let rs := [RegSingleton "A" Scenario.MAKE_OBJECT;
             RegFactory "B" Scenario.MAKE_OBJECT;
             RegSingleton "C" Scenario.ZERO] in
  let st := register_all rs initial in
  is_Some (singletons st !! "A")
  /\ getSingleton Scenario.closures 1 "A" (reset st).2
     = (Threw (Error "Singleton not registered: A"), (reset st).2)
  /\ is_Some (factories st !! "B")
  /\ getFactory Scenario.closures 1 "B" (reset st).2
     = (Threw (Error "Factory not registered: B"), (reset st).2).
Proof.
  intros rs st.
  pose proof (reset_clears_all Scenario.closures rs initial 1 "A") as HA.
  pose proof (reset_clears_all Scenario.closures rs initial 1 "B") as HB.
  destruct HA as (HA1 & _ & _ & _ & HA2 & _).
  destruct HB as (_ & HB1 & _ & _ & _ & HB2).
  split; [|split; [|split]].
  - apply HA1. exists Scenario.MAKE_OBJECT. apply list_elem_of_here.
  - exact HA2.
  - apply HB1. exists Scenario.MAKE_OBJECT.
    apply list_elem_of_further, list_elem_of_here.
  - exact HB2.
Defined.

(** ** Factory registrations *)

Lemma invoke_S (code : fid -> prog) fuel f st :
  invoke code (S fuel) f st = exec code fuel (code f) (record_call f st).
Proof. reflexivity. Qed.

Lemma constructs_object_result (code : fid -> prog) fuel p st v st' :
  constructs_object p ->
  exec code fuel p st = (Returned v, st') ->
  exists l, v = VObj l /\ next_obj st <= l /\ next_obj st' = S l.
Proof.
  intros [->|[q ->]] Hrun.
  - inversion Hrun; subst. exists (next_obj st). by repeat split.
  - unfold exec in Hrun. simpl in Hrun.
    pose proof (exec_next_obj code fuel q st) as Hle. unfold exec in Hle.
    destruct (exec_with (invoke code fuel) q st) as [o1 st1].
    destruct o1; try done. simpl in *.
    inversion Hrun; subst. exists (next_obj st1). by repeat split.
Qed.

(** C4: let [key] be registered in the factory namespace with function [f].
    A [getFactory] call is one invocation of [f], whose result, value or
    error, and final state are those of the call: the container stores
    nothing.  Hence the count of [f] grows with each call, a second call runs
    [f] again, and when the body of [f] ends by building an object the two
    calls return two different references.  If the body of [f] does not call
    the container, the registration is still there after the first call and
    the count of [f] is exactly one, then exactly two, above what it was. *)
Theorem getFactory_invokes_every_time (code : fid -> prog) (fuel fuel' : nat)
    (key : string) (f : fid) (st : state) :
  factories st !! key = Some f ->
  let r1 := getFactory code (S fuel) key st in
  let r2 := getFactory code (S fuel') key r1.2 in
  r1 = exec code fuel (code f) (record_call f st)
  /\ S (calls f st) <= calls f r1.2
  /\ (factories r1.2 !! key = Some f ->
      r2 = exec code fuel' (code f) (record_call f r1.2)
      /\ S (S (calls f st)) <= calls f r2.2
      /\ (constructs_object (code f) ->
          forall v1 v2, r1.1 = Returned v1 -> r2.1 = Returned v2 ->
          exists l1 l2, v1 = VObj l1 /\ v2 = VObj l2 /\ l1 < l2
                        /\ strict_eq v1 v2 = false))
  /\ (container_free (code f) ->
      factories r1.2 !! key = Some f
      /\ calls f r1.2 = S (calls f st)
      /\ calls f r2.2 = S (S (calls f st))).
Proof.
  intros Hk r1 r2.
  assert (E1 : r1 = exec code fuel (code f) (record_call f st)).
  { unfold r1. by rewrite (getFactory_present code _ _ _ _ Hk), invoke_S. }
  assert (C1 : S (calls f st) <= calls f r1.2).
  { rewrite E1, <- calls_record_call. apply exec_calls. }
  assert (Second : factories r1.2 !! key = Some f ->
                   r2 = exec code fuel' (code f) (record_call f r1.2)).
  { intros Hk1. unfold r2.
    by rewrite (getFactory_present code _ _ _ _ Hk1), invoke_S. }
  split; [done|]. split; [done|]. split.
  - intros Hk1. pose proof (Second Hk1) as E2.
    split; [done|]. split.
    + rewrite E2. etrans; [|apply exec_calls].
      rewrite calls_record_call. lia.
    + intros Hobj v1 v2 Hv1 Hv2.
      destruct r1 as [o1 s1] eqn:Er1. destruct r2 as [o2 s2] eqn:Er2.
      simpl in *. subst o1 o2.
      destruct (constructs_object_result code fuel _ _ _ _ Hobj (eq_sym E1))
        as (l1 & -> & _ & Hn1).
      destruct (constructs_object_result code fuel' _ _ _ _ Hobj (eq_sym E2))
        as (l2 & -> & Hn2 & _).
      simpl in Hn2. exists l1, l2.
      assert (l1 < l2) by lia. repeat split; [done|].
      simpl. apply Nat.eqb_neq. lia.
  - intros Hfree.
    destruct r1 as [o1 s1] eqn:Er1.
    assert (I1 : invoke code (S fuel) f st = (o1, s1)) by by rewrite invoke_S.
    destruct (invoke_container_free code _ _ _ _ _ Hfree I1)
      as (_ & Hf1 & _ & _ & Hlog1).
    assert (Hk1 : factories s1 !! key = Some f) by by rewrite Hf1.
    split; [done|]. split.
    + unfold calls. simpl. rewrite Hlog1. simpl.
      by destruct (Nat.eq_dec f f).
    + destruct r2 as [o2 s2] eqn:Er2.
      assert (I2 : invoke code (S fuel') f s1 = (o2, s2)).
      { rewrite invoke_S. symmetry. by apply Second. }
      destruct (invoke_container_free code _ _ _ _ _ Hfree I2)
        as (_ & _ & _ & _ & Hlog2).
      unfold calls. simpl. rewrite Hlog2, Hlog1. simpl.
      by destruct (Nat.eq_dec f f).
Qed.

Lemma getFactory_invokes_every_time_witness :
  let st := (registerFactory "B" Scenario.MAKE_OBJECT initial).2 in
  let r1 := getFactory Scenario.closures 1 "B" st in
  let r2 := getFactory Scenario.closures 1 "B" r1.2 in
  (exists l1 l2, r1.1 = Returned (VObj l1) /\ r2.1 = Returned (VObj l2)
                 /\ l1 < l2)
  /\ calls Scenario.MAKE_OBJECT st = 0
  /\ calls Scenario.MAKE_OBJECT r1.2 = 1
  /\ calls Scenario.MAKE_OBJECT r2.2 = 2.
Proof.
  intros st r1 r2.
  assert (Hk : factories st !! "B" = Some Scenario.MAKE_OBJECT)
    by reflexivity.
  destruct (getFactory_invokes_every_time Scenario.closures 0 0 "B"
              Scenario.MAKE_OBJECT st Hk) as (_ & _ & Hsnd & Hfree).
  destruct (Hfree I) as (Hk1 & Hc1 & Hc2).
  destruct (Hsnd Hk1) as (_ & _ & Hobj).
  destruct (Hobj (or_introl eq_refl) (VObj 0) (VObj 1) eq_refl eq_refl)
    as (l1 & l2 & E1 & E2 & Hlt & _).
  split; [|split; [reflexivity|split; [exact Hc1|exact Hc2]]].
  exists l1, l2. split; [|split; [|exact Hlt]].
  - rewrite <- E1. reflexivity.
  - rewrite <- E2. reflexivity.
Defined.

(** ** What a run leaves alone

    The only assignment to a record is the one that ends a constructing
    [getSingleton]; it follows an invocation of the record's factory and is
    made to a record that held no truthy instance.  So a record with a truthy
    instance is never written again, and a record whose factory has not been
    invoked is as it was. *)

Lemma keeps_records_refl st : keeps_records st st.
Proof. split; [intros f; lia | by intros l s Hl _]. Qed.

Lemma keeps_records_trans a b c :
  keeps_records a b -> keeps_records b c -> keeps_records a c.
Proof.
  intros [Hab Kab] [Hbc Kbc]. split.
  - intros f. specialize (Hab f). specialize (Hbc f). lia.
  - intros l s Hl [Ht|Hc].
    + apply Kbc; [|by left]. apply Kab; [done | by left].
    + pose proof (Hab (factory s)). pose proof (Hbc (factory s)).
      apply Kbc; [|right; lia]. apply Kab; [done | right; lia].
Qed.

Lemma keeps_records_same_heap st st' :
  heap st' = heap st ->
  (forall f, calls f st <= calls f st') ->
  keeps_records st st'.
Proof. intros Hh Hc. split; [done|]. intros l s Hl _. by rewrite Hh. Qed.

Lemma registerSingleton_keeps key f st :
  well_formed st -> keeps_records st (registerSingleton key f st).2.
Proof.
  intros [Hfresh _]. rewrite registerSingleton_spec. split; simpl.
  - intros g. unfold calls. simpl. lia.
  - intros l s Hl _. rewrite lookup_insert_ne; [done|].
    intros <-. assert (next_loc st < next_loc st); [|lia].
    apply Hfresh. eauto.
Qed.

Lemma getSingleton_with_keeps (call : fid -> M) key st :
  (forall f s, well_formed s -> keeps_records s (call f s).2) ->
  (forall f s v s', call f s = (Returned v, s') -> calls f s < calls f s') ->
  well_formed st ->
  keeps_records st (getSingleton_with call key st).2.
Proof.
  intros Hcall Hlog Hwf. unfold getSingleton_with.
  destruct (singletons st !! key) as [l|]; [|apply keeps_records_refl].
  destruct (heap st !! l) as [s|] eqn:Hl; [|apply keeps_records_refl].
  destruct (to_boolean (read_instance s)) eqn:Hs; simpl;
    [apply keeps_records_refl|].
  pose proof (Hcall (factory s) st Hwf) as Hrun.
  pose proof (Hlog (factory s) st) as Hcount.
  destruct (call (factory s) st) as [o st1].
  destruct o as [v|e| |]; try done.
  destruct Hrun as [Hmono Hkeep]. simpl in *.
  specialize (Hcount v st1 eq_refl).
  split; [done|]. intros l' s' Hl' Hcond. simpl.
  destruct (decide (l = l')) as [<-|Hne].
  - assert (s' = s) as -> by congruence.
    destruct Hcond as [Ht|Hc]; [congruence|]. unfold calls in *. simpl in Hc.
    lia.
  - rewrite lookup_insert_ne by done. by apply Hkeep.
Qed.

Lemma exec_with_keeps (call : fid -> M) :
  (forall f s, sound_run s (call f s)) ->
  (forall f s, well_formed s -> keeps_records s (call f s).2) ->
  (forall f s v s', call f s = (Returned v, s') -> calls f s < calls f s') ->
  forall p st, well_formed st -> keeps_records st (exec_with call p st).2.
Proof.
  intros Hsound Hcall Hlog.
  induction p as [v|e|p IHp k IHk|p IHp h IHh| |c|c v|key f|key f|key|key|];
    intros st Hwf; simpl exec_with.
  - apply keeps_records_refl.
  - apply keeps_records_refl.
  - specialize (IHp st Hwf).
    pose proof (exec_with_sound call Hsound p st Hwf) as (Hwf1 & _ & _).
    destruct (exec_with call p st) as [o1 st1].
    destruct o1 as [v|e| |]; try done.
    eapply keeps_records_trans; [exact IHp | by apply IHk].
  - specialize (IHp st Hwf).
    pose proof (exec_with_sound call Hsound p st Hwf) as (Hwf1 & _ & _).
    destruct (exec_with call p st) as [o1 st1].
    destruct o1 as [v|e| |]; try done.
    eapply keeps_records_trans; [exact IHp | by apply IHh].
  - by apply keeps_records_same_heap.
  - apply keeps_records_refl.
  - by apply keeps_records_same_heap.
  - by apply registerSingleton_keeps.
  - by apply keeps_records_same_heap.
  - by apply getSingleton_with_keeps.
  - unfold getFactory_with. destruct (factories st !! key) as [f|].
    + by apply Hcall.
    + apply keeps_records_refl.
  - by apply keeps_records_same_heap.
Qed.

(** A function that was invoked and came to a result is in the log. *)
Lemma invoke_logged (code : fid -> prog) n f st :
  calls f st < calls f (invoke code (S n) f st).2.
Proof.
  rewrite invoke_S.
  pose proof (exec_calls code f n (code f) (record_call f st)) as Hle.
  rewrite calls_record_call in Hle. lia.
Qed.

Lemma invoke_returned_logged (code : fid -> prog) fuel f st v st' :
  invoke code fuel f st = (Returned v, st') -> calls f st < calls f st'.
Proof.
  destruct fuel as [|n]; [done|]. intros Hrun.
  pose proof (invoke_logged code n f st) as Hlt. by rewrite Hrun in Hlt.
Qed.

Lemma invoke_keeps (code : fid -> prog) fuel f st :
  well_formed st -> keeps_records st (invoke code fuel f st).2.
Proof.
  revert f st. induction fuel as [|n IH]; intros f st Hwf; simpl invoke.
  - apply keeps_records_refl.
  - apply (keeps_records_trans st (record_call f st)).
    + apply keeps_records_same_heap; [done|].
      intros g. unfold calls. simpl. destruct (Nat.eq_dec f g); lia.
    + apply exec_with_keeps.
      * intros g s. apply invoke_sound.
      * exact IH.
      * apply invoke_returned_logged.
      * by apply (sound_run_same_heap st (Returned VUndefined)); auto.
Qed.

Lemma exec_keeps (code : fid -> prog) fuel p st :
  well_formed st -> keeps_records st (exec code fuel p st).2.
Proof.
  apply exec_with_keeps.
  - intros f s. apply invoke_sound.
  - intros f s. apply invoke_keeps.
  - apply invoke_returned_logged.
Qed.

(** The body of a function run on its own entry in the log: a record whose
    factory is that function and was not entered again is as it was. *)
Lemma invoke_once_keeps (code : fid -> prog) fuel st o st' l s :
  well_formed st ->
  heap st !! l = Some s ->
  invoke code fuel (factory s) st = (o, st') ->
  calls (factory s) st' = S (calls (factory s) st) ->
  heap st' !! l = Some s.
Proof.
  intros Hwf Hl Hrun Hc. destruct fuel as [|n].
  - inversion Hrun; subst. lia.
  - rewrite invoke_S in Hrun.
    assert (Hwf1 : well_formed (record_call (factory s) st)).
    { by apply (sound_run_same_heap st (Returned VUndefined)); auto. }
    destruct (exec_keeps code n (code (factory s)) _ Hwf1) as [_ Hkeep].
    rewrite Hrun in Hkeep. simpl in Hkeep.
    apply Hkeep; [done|]. right. by rewrite calls_record_call.
Qed.

(** ** A factory that throws *)

(** C5, as amended: in a well-formed state, as every state reached from
    the initial one is, let the record of [key] hold no truthy [instance]
    and let its factory, called by [getSingleton], throw [e] and leave the
    state [st'].  Then [getSingleton] throws the same [e] and leaves the same
    [st']: it catches nothing and assigns nothing, so the record holds what
    the factory's own run left in it.  When the factory was not entered
    again during that run (the log holds one more call of it), the record
    is as it was, without an instance if it had none; and then, while [key]
    still leads to that record, every later [getSingleton] calls the factory
    again and treats its result as on a first call.  A factory whose body
    does not call the container is entered once and leaves [key] where it
    led.  [getFactory] passes an error of its factory on in the same way. *)
Theorem factory_error_propagates (code : fid -> prog) (fuel : nat)
    (key : string) (st : state) (e : exn) (st' : state) :
  well_formed st ->
  (forall l s,
     singletons st !! key = Some l ->
     heap st !! l = Some s ->
     to_boolean (read_instance s) = false ->
     invoke code fuel (factory s) st = (Threw e, st') ->
     getSingleton code fuel key st = (Threw e, st')
     /\ (calls (factory s) st' = S (calls (factory s) st) ->
         heap st' !! l = Some s
         /\ (singletons st' !! key = Some l ->
             forall fuel',
               getSingleton code fuel' key st'
               = match invoke code fuel' (factory s) st' with
                 | (Returned v, st'') =>
                     (Returned v, write_instance l (factory s) v st'')
                 | r => r
                 end
               /\ calls (factory s) st'
                  < calls (factory s)
                      (getSingleton code (S fuel') key st').2))
     /\ (container_free (code (factory s)) ->
         singletons st' !! key = Some l
         /\ calls (factory s) st' = S (calls (factory s) st)))
  /\ (forall f,
        factories st !! key = Some f ->
        invoke code fuel f st = (Threw e, st') ->
        getFactory code fuel key st = (Threw e, st')).
Proof.
  intros Hwf. split.
  - intros l s Hk Hl Hfalsy Hrun. split; [|split].
    + by rewrite (getSingleton_construct code _ _ _ _ _ Hk Hl Hfalsy), Hrun.
    + intros Honce.
      assert (Hl' : heap st' !! l = Some s) by (by eapply invoke_once_keeps).
      split; [done|]. intros Hk' fuel'.
      pose proof (getSingleton_construct code) as Hagain.
      split; [by apply Hagain|].
      rewrite (Hagain (S fuel') key l s st' Hk' Hl' Hfalsy).
      pose proof (invoke_logged code fuel' (factory s) st') as Hlt.
      destruct (invoke code (S fuel') (factory s) st') as [o st''].
      by destruct o.
    + intros Hfree. destruct fuel as [|n]; [by inversion Hrun|].
      destruct (invoke_container_free code _ _ _ _ _ Hfree Hrun)
        as (Hs & _ & _ & _ & Hlog).
      rewrite Hs. split; [done|].
      unfold calls. rewrite Hlog. simpl.
      by destruct (Nat.eq_dec (factory s) (factory s)).
  - intros f Hk Hrun.
    by rewrite (getFactory_present code _ _ _ _ Hk).
Qed.

Lemma factory_error_propagates_witness :
  let missing := Error ("Singleton not registered: "
                        +:+ Users.INTERNAL_USER_REPOSITORY) in
  let st := (registerFactory Users.INTERNAL_USER_USECASE 2
               (registerSingleton Users.INTERNAL_USER_USECASE 2
                  initial).2).2 in
  let r1 := getSingleton Users.closures 1 Users.INTERNAL_USER_USECASE st in
  let r2 := getSingleton Users.closures 1 Users.INTERNAL_USER_USECASE r1.2 in
  let bt := (registerSingleton "boom" Scenario.BOOM initial).2 in
  let b1 := getSingleton Scenario.closures 1 "boom" bt in
  (r1.1 = Threw missing
   /\ heap r1.2 !! 0 = Some (mkSingleton None 2)
   /\ r2.1 = Threw missing
   /\ calls 2 r1.2 = 1
   /\ calls 2 r2.2 = 2
   /\ (getFactory Users.closures 1 Users.INTERNAL_USER_USECASE st).1
      = Threw missing)
  /\ (b1.1 = Threw (Error "boom")
      /\ heap b1.2 !! 0 = Some (mkSingleton None Scenario.BOOM)
      /\ singletons b1.2 !! "boom" = Some 0
      /\ calls Scenario.BOOM b1.2 = 1).
Proof.
  intros missing st r1 r2 bt b1. split.
  - pose (s := mkSingleton None 2).
    pose (st' := record_call 2 st).
    assert (Hwf : well_formed st).
    { apply (sound_run_same_heap
               (registerSingleton Users.INTERNAL_USER_USECASE 2 initial).2
               (Returned VUndefined) st); [done | done | by left | done |].
      apply registerSingleton_sound, initial_well_formed. }
    destruct (factory_error_propagates Users.closures 1
                Users.INTERNAL_USER_USECASE st missing st' Hwf)
      as [Hsing Hfact].
    destruct (Hsing 0 s eq_refl eq_refl eq_refl eq_refl)
      as (H1 & Hkeep & _).
    destruct (Hkeep eq_refl) as [Hl' Hretry].
    destruct (Hretry eq_refl 1) as [Hagain _].
    assert (E1 : r1 = (Threw missing, st')) by exact H1.
    assert (E2 : r2 = invoke Users.closures 1 2 st').
    { unfold r2. rewrite E1. simpl snd. by rewrite Hagain. }
    rewrite E1. simpl fst. simpl snd.
    split; [reflexivity|]. split; [exact Hl'|].
    split; [by rewrite E2|]. split; [reflexivity|].
    split; [by rewrite E2|].
    by rewrite (Hfact 2 eq_refl eq_refl).
  - pose (s := mkSingleton None Scenario.BOOM).
    pose (bt' := record_call Scenario.BOOM bt).
    assert (Hwf : well_formed bt).
    { apply registerSingleton_sound, initial_well_formed. }
    destruct (factory_error_propagates Scenario.closures 1 "boom" bt
                (Error "boom") bt' Hwf) as [Hsing _].
    destruct (Hsing 0 s eq_refl eq_refl eq_refl eq_refl)
      as (H1 & Hkeep & Hfree).
    destruct (Hfree I) as [Hk' Hc].
    assert (E1 : b1 = (Threw (Error "boom"), bt')) by exact H1.
    rewrite E1. simpl fst. simpl snd.
    split; [reflexivity|]. split; [exact (proj1 (Hkeep Hc))|].
    split; [exact Hk' | exact Hc].
Defined.

(** C5, counterexample: a factory that resolves its own key before it
    throws, registered and resolved for the first time.  The outer call
    of the factory throws, and [getSingleton] passes the error on; but the
    resolution made from inside it has run the factory a second time, which
    returned an object, and has stored that object in the record.  So the
    record holds an instance after the failure, and every later
    [getSingleton] returns that instance without calling the factory. *)
Lemma factory_error_reentrant_cached :
  let st := (registerSingleton "self" Reentrant.THROWS_AFTER
               Reentrant.start).2 in
  let r1 := getSingleton Reentrant.closures 2 "self" st in
  heap st !! 0 = Some (mkSingleton None Reentrant.THROWS_AFTER)
  /\ (invoke Reentrant.closures 2 Reentrant.THROWS_AFTER st).1
     = Threw (Error "boom")
  /\ r1.1 = Threw (Error "boom")
  /\ singletons r1.2 !! "self" = Some 0
  /\ heap r1.2 !! 0
     = Some (mkSingleton (Some (VObj 0)) Reentrant.THROWS_AFTER)
  /\ calls Reentrant.THROWS_AFTER r1.2 = 2
  /\ (forall fuel,
        getSingleton Reentrant.closures fuel "self" r1.2
        = (Returned (VObj 0), r1.2)).
Proof.
  intros st r1.
  split; [reflexivity|]. split; [reflexivity|]. split; [reflexivity|].
  split; [reflexivity|]. split; [reflexivity|]. split; [reflexivity|].
  intros fuel.
  by apply (getSingleton_cached Reentrant.closures fuel "self" 0
              (mkSingleton (Some (VObj 0)) Reentrant.THROWS_AFTER)).
Qed.

(** A factory that resets the container before it throws: the key is not
    registered any more, and a later [getSingleton] throws the
    not-registered error without calling the factory. *)
Example factory_error_after_reset :
  let st := (registerSingleton "self" Reentrant.RESETS_FIRST
               Reentrant.start).2 in
  let r1 := getSingleton Reentrant.closures 1 "self" st in
  r1.1 = Threw (Error "boom")
  /\ singletons r1.2 !! "self" = None
  /\ (forall fuel,
        getSingleton Reentrant.closures fuel "self" r1.2
        = (Threw (Error "Singleton not registered: self"), r1.2)).
Proof.
  intros st r1.
  split; [reflexivity|]. split; [reflexivity|].
  intros fuel. by apply getSingleton_absent.
Qed.

(** ** Registering a singleton key again *)

(** C6: let [key] be registered in the singleton namespace, with or without
    a cached instance.  [registerSingleton] with [key] and a function [g]
    returns normally; afterwards [key] leads to a new record that holds [g]
    and no instance, and the next [getSingleton] calls [g] and returns what
    that call returns, storing it in the new record.  In a well-formed state
    the new record is not the old one, which stays as it was; when the body
    of [g] does not call the container and [g] is not the old factory, the
    old factory is not called. *)
Theorem registerSingleton_again_replaces (code : fid -> prog) (key : string)
    (g : fid) (st : state) (l_old : loc) (s_old : Singleton) :
  singletons st !! key = Some l_old ->
  heap st !! l_old = Some s_old ->
  let st' := (registerSingleton key g st).2 in
  (registerSingleton key g st).1 = Returned VUndefined
  /\ singletons st' !! key = Some (next_loc st)
  /\ heap st' !! next_loc st = Some (mkSingleton None g)
  /\ (forall fuel,
        getSingleton code fuel key st'
        = match invoke code fuel g st' with
          | (Returned v, st'') =>
              (Returned v, write_instance (next_loc st) g v st'')
          | r => r
          end)
  /\ (well_formed st ->
      next_loc st <> l_old /\ heap st' !! l_old = Some s_old)
  /\ (container_free (code g) -> g <> factory s_old ->
      forall fuel,
        calls (factory s_old) (getSingleton code fuel key st').2
        = calls (factory s_old) st).
Proof.
  intros Hk Hl st'.
  destruct (registerSingleton_lookup key g st) as [Hk' Hl'].
  split; [reflexivity|]. split; [exact Hk'|]. split; [exact Hl'|].
  split; [|split].
  - intros fuel. apply register_then_getSingleton.
  - intros [Hfresh _].
    assert (Hne : next_loc st <> l_old).
    { intros E. assert (l_old < next_loc st); [|lia].
      apply Hfresh. eauto. }
    split; [done|]. unfold st'. simpl. by rewrite lookup_insert_ne.
  - intros Hfree Hne fuel. unfold st'.
    rewrite register_then_getSingleton. fold st'.
    destruct fuel as [|n]; [reflexivity|].
    destruct (invoke code (S n) g st') as [o st''] eqn:Hrun.
    destruct (invoke_container_free code _ _ _ _ _ Hfree Hrun)
      as (_ & _ & _ & _ & Hlog).
    assert (Hc : calls (factory s_old) st'' = calls (factory s_old) st).
    { unfold calls. rewrite Hlog. simpl.
      by destruct (Nat.eq_dec g (factory s_old)). }
    by destruct o.
Qed.

Lemma registerSingleton_again_replaces_witness :
  let st0 := (registerSingleton "A" Scenario.MAKE_OBJECT initial).2 in
  let st1 := (getSingleton Scenario.closures 1 "A" st0).2 in
  let st2 := (registerSingleton "A" Scenario.MAKE_OTHER st1).2 in
  let r := getSingleton Scenario.closures 1 "A" st2 in
  (getSingleton Scenario.closures 1 "A" st1).1 = Returned (VObj 0)
  /\ r.1 = Returned (VObj 1)
  /\ calls Scenario.MAKE_OBJECT r.2 = 1
  /\ calls Scenario.MAKE_OTHER r.2 = 1.
Proof.
  intros st0 st1 st2 r.
  pose (s_old := mkSingleton (Some (VObj 0)) Scenario.MAKE_OBJECT).
  destruct (registerSingleton_again_replaces Scenario.closures "A"
              Scenario.MAKE_OTHER st1 0 s_old eq_refl eq_refl)
    as (_ & _ & _ & Hget & _ & Hold).
  split; [reflexivity|]. split; [|split].
  - unfold r, st2. by rewrite (Hget 1).
  - etrans; [exact (Hold I ltac:(discriminate) 1) | reflexivity].
  - unfold r, st2. by rewrite (Hget 1).
Defined.

(** ** The two namespaces *)

(** For a factory whose body does not call the container, resolving it
    after a singleton registration is resolving it before, followed by that
    registration. *)
Lemma getFactory_after_registerSingleton (code : fid -> prog) fuel key k g st :
  (forall f, factories st !! key = Some f -> container_free (code f)) ->
  getFactory code fuel key (registerSingleton k g st).2
  = ((getFactory code fuel key st).1,
     (registerSingleton k g (getFactory code fuel key st).2).2).
Proof.
  intros Hfree. unfold getFactory, getFactory_with.
  change (factories (registerSingleton k g st).2) with (factories st).
  destruct (factories st !! key) as [f|] eqn:Hk; [|reflexivity].
  specialize (Hfree f eq_refl).
  destruct fuel as [|n]; [reflexivity|]. simpl invoke.
  destruct (exec_with (invoke code n) (code f) (record_call f st))
    as [o st'] eqn:Hrun.
  pose proof (container_free_frame _ _ _ _ _ Hfree Hrun) as Hframe.
  etrans.
  { exact (container_free_exec _ (invoke code n) _ Hfree _ _ _
             (record_call f (registerSingleton k g st).2) Hrun). }
  simpl fst. simpl snd. f_equal. rewrite <- Hframe. reflexivity.
Qed.

(** The same for a singleton and a factory registration. *)
Lemma getSingleton_after_registerFactory (code : fid -> prog) fuel key k h st :
  (forall l s, singletons st !! key = Some l -> heap st !! l = Some s ->
               container_free (code (factory s))) ->
  getSingleton code fuel key (registerFactory k h st).2
  = ((getSingleton code fuel key st).1,
     (registerFactory k h (getSingleton code fuel key st).2).2).
Proof.
  intros Hfree. unfold getSingleton, getSingleton_with.
  change (singletons (registerFactory k h st).2) with (singletons st).
  change (heap (registerFactory k h st).2) with (heap st).
  destruct (singletons st !! key) as [l|] eqn:Hk; [|reflexivity].
  destruct (heap st !! l) as [s|] eqn:Hl; [|reflexivity].
  specialize (Hfree l s eq_refl Hl).
  destruct (negb (to_boolean (read_instance s))); [|reflexivity].
  destruct fuel as [|n]; [reflexivity|]. simpl invoke.
  destruct (exec_with (invoke code n) (code (factory s))
              (record_call (factory s) st)) as [o st'] eqn:Hrun.
  pose proof (container_free_frame _ _ _ _ _ Hfree Hrun) as Hframe.
  assert (Hrun' : exec_with (invoke code n) (code (factory s))
                    (record_call (factory s) (registerFactory k h st).2)
                  = (o, with_world st'
                          (record_call (factory s) (registerFactory k h st).2))).
  { exact (container_free_exec _ (invoke code n) _ Hfree _ _ _
             (record_call (factory s) (registerFactory k h st).2) Hrun). }
  simpl in Hrun'. simpl. rewrite Hrun'. rewrite <- Hframe. by destruct o.
Qed.

(** C8: registering [key] as a singleton leaves the factory map as it was,
    and registering [key] as a factory leaves the singleton map and every
    record, with its cached instance, as they were.  So after either
    registration the other namespace resolves [key] as before: [getFactory]
    calls the same function, [getSingleton] returns the same cached instance
    or calls the same factory for the same record; for functions whose body
    does not call the container, resolving after the registration gives the
    result of resolving before it and the state of doing both in the other
    order.  One key can be registered in both namespaces at once, each
    holding its own function. *)
Theorem namespaces_disjoint (code : fid -> prog) (key : string) (g h : fid)
    (st : state) :
  let sS := (registerSingleton key g st).2 in
  let sF := (registerFactory key h st).2 in
  factories sS = factories st
  /\ (forall fuel f, factories st !! key = Some f ->
        getFactory code fuel key sS = invoke code fuel f sS)
  /\ ((forall f, factories st !! key = Some f -> container_free (code f)) ->
      forall fuel,
        getFactory code fuel key sS
        = ((getFactory code fuel key st).1,
           (registerSingleton key g (getFactory code fuel key st).2).2))
  /\ singletons sF = singletons st
  /\ heap sF = heap st
  /\ (forall fuel l s,
        singletons st !! key = Some l -> heap st !! l = Some s ->
        getSingleton code fuel key sF
        = if to_boolean (read_instance s)
          then (Returned (read_instance s), sF)
          else match invoke code fuel (factory s) sF with
               | (Returned v, st') =>
                   (Returned v, write_instance l (factory s) v st')
               | r => r
               end)
  /\ ((forall l s, singletons st !! key = Some l -> heap st !! l = Some s ->
                   container_free (code (factory s))) ->
      forall fuel,
        getSingleton code fuel key sF
        = ((getSingleton code fuel key st).1,
           (registerFactory key h (getSingleton code fuel key st).2).2))
  /\ singletons (registerFactory key h sS).2 !! key = Some (next_loc st)
  /\ heap (registerFactory key h sS).2 !! next_loc st
     = Some (mkSingleton None g)
  /\ factories (registerFactory key h sS).2 !! key = Some h
  /\ (registerSingleton key g sF).2 = (registerFactory key h sS).2.
Proof.
  intros sS sF.
  split; [reflexivity|]. split.
  { intros fuel f Hk. by apply getFactory_present. }
  split.
  { intros Hfree fuel. by apply getFactory_after_registerSingleton. }
  split; [reflexivity|]. split; [reflexivity|]. split.
  { intros fuel l s Hk Hl.
    destruct (to_boolean (read_instance s)) eqn:Ht.
    - by apply (getSingleton_cached code fuel key l s sF).
    - by apply (getSingleton_construct code fuel key l s sF). }
  split.
  { intros Hfree fuel. by apply getSingleton_after_registerFactory. }
  split; [simpl; apply lookup_insert_eq|].
  split; [simpl; apply lookup_insert_eq|].
  split; [simpl; apply lookup_insert_eq|].
  reflexivity.
Qed.

Lemma namespaces_disjoint_witness :
  let st0 := (registerFactory "K" Scenario.MAKE_OBJECT
                (registerSingleton "K" Scenario.MAKE_OTHER initial).2).2 in
  let st := (getSingleton Scenario.closures 1 "K" st0).2 in
  let sS := (registerSingleton "K" Scenario.ZERO st).2 in
  let sF := (registerFactory "K" Scenario.BOOM st).2 in
  (getFactory Scenario.closures 1 "K" st).1 = Returned (VObj 1)
  /\ (getFactory Scenario.closures 1 "K" sS).1 = Returned (VObj 1)
  /\ (getSingleton Scenario.closures 1 "K" st).1 = Returned (VObj 0)
  /\ (getSingleton Scenario.closures 1 "K" sF).1 = Returned (VObj 0).
Proof.
  intros st0 st sS sF.
  destruct (namespaces_disjoint Scenario.closures "K" Scenario.ZERO Scenario.BOOM
              st) as (_ & HgetF & _ & _ & _ & HgetS & _).
  split; [reflexivity|]. split; [|split; [reflexivity|]].
  - unfold sS. by rewrite (HgetF 1 Scenario.MAKE_OBJECT eq_refl).
  - unfold sF.
    by rewrite (HgetS 1 0 (mkSingleton (Some (VObj 0)) Scenario.MAKE_OTHER)
                  eq_refl eq_refl).
Defined.

(** ** Keys are not validated *)

(** C10: both registration methods return normally for every key, the empty
    string included, and a registration under the empty string resolves as
    one under any key does: [getSingleton] calls the registered function and
    stores what it returns in the record of the key, [getFactory] calls the
    registered function. *)
Theorem empty_key_is_a_key (code : fid -> prog) (f : fid) (st : state)
    (fuel : nat) :
  let resolves key :=
    (registerSingleton key f st).1 = Returned VUndefined
    /\ (registerFactory key f st).1 = Returned VUndefined
    /\ singletons (registerSingleton key f st).2 !! key = Some (next_loc st)
    /\ factories (registerFactory key f st).2 !! key = Some f
    /\ getSingleton code fuel key (registerSingleton key f st).2
       = match invoke code fuel f (registerSingleton key f st).2 with
         | (Returned v, st') =>
             (Returned v, write_instance (next_loc st) f v st')
         | r => r
         end
    /\ getFactory code fuel key (registerFactory key f st).2
       = invoke code fuel f (registerFactory key f st).2 in
  resolves EmptyString /\ forall key, resolves key.
Proof.
  intros resolves.
  assert (Hall : forall key, resolves key).
  { intros key. unfold resolves.
    split; [reflexivity|]. split; [reflexivity|].
    split; [apply registerSingleton_lookup|].
    split; [simpl; apply lookup_insert_eq|].
    split; [apply register_then_getSingleton|apply register_then_getFactory]. }
  split; [apply Hall | exact Hall].
Qed.

Example empty_key_resolves :
  let st := (registerFactory EmptyString Scenario.MAKE_OTHER
               (registerSingleton EmptyString Scenario.MAKE_OBJECT initial).2).2 in
  (getSingleton Scenario.closures 1 EmptyString st).1 = Returned (VObj 0)
  /\ (getFactory Scenario.closures 1 EmptyString st).1 = Returned (VObj 0)
  /\ (getSingleton Scenario.closures 1 "x" st).1
     = Threw (Error "Singleton not registered: x").
Proof. vm_compute. repeat split. Qed.

(** ** Singleton registrations *)

(** Registration calls no function. *)
Lemma registerSingleton_invocations key f st :
  invocations (registerSingleton key f st).2 = invocations st.
Proof. reflexivity. Qed.

(** Once [getSingleton] has returned a truthy value for a key, and the key
    still leads to the same record, it returns that very value again and
    changes nothing, so calls no function. *)
Lemma getSingleton_truthy_again (code : fid -> prog) fuel fuel' key st v st1 :
  getSingleton code fuel key st = (Returned v, st1) ->
  to_boolean v = true ->
  singletons st1 !! key = singletons st !! key ->
  getSingleton code fuel' key st1 = (Returned v, st1).
Proof.
  unfold getSingleton at 1. unfold getSingleton_with.
  intros Hrun Hv Hsame.
  destruct (singletons st !! key) as [l|] eqn:Hk; [|done].
  destruct (heap st !! l) as [s|] eqn:Hl; [|done].
  destruct (to_boolean (read_instance s)) eqn:Hs; simpl in Hrun.
  - inversion Hrun; subst.
    by apply (getSingleton_cached code fuel' key l s).
  - destruct (invoke code fuel (factory s) st) as [o st'] eqn:Hcall.
    destruct o; inversion Hrun; subst.
    apply (getSingleton_cached code fuel' key l
             (mkSingleton (Some v) (factory s))); [done| |done].
    simpl. apply lookup_insert_eq.
Qed.

(** A factory that does not call the container and returns a truthy value
    is not called by the registration, is called once by the first
    [getSingleton], and is not called by a later one, which returns the same
    value and leaves the state as it is. *)
Lemma singleton_constructed_once (code : fid -> prog) fuel fuel' key f st v :
  container_free (code f) ->
  let st0 := (registerSingleton key f st).2 in
  let r1 := getSingleton code (S fuel) key st0 in
  let r2 := getSingleton code fuel' key r1.2 in
  r1.1 = Returned v ->
  to_boolean v = true ->
  calls f st0 = calls f st
  /\ calls f r1.2 = S (calls f st)
  /\ r2 = r1.
Proof.
  intros Hfree st0 r1 r2 Hv Ht.
  split; [reflexivity|].
  assert (E1 : r1 = match invoke code (S fuel) f st0 with
                    | (Returned v, st') =>
                        (Returned v, write_instance (next_loc st) f v st')
                    | r => r
                    end) by apply register_then_getSingleton.
  destruct (invoke code (S fuel) f st0) as [o st'] eqn:Hrun.
  destruct (invoke_container_free code _ _ _ _ _ Hfree Hrun)
    as (Hs & _ & _ & _ & Hlog).
  assert (Hc : calls f st' = S (calls f st)).
  { unfold calls. rewrite Hlog. simpl. by destruct (Nat.eq_dec f f). }
  destruct o as [w|e| |]; rewrite E1 in Hv; try done.
  simpl in Hv. inversion Hv; subst w.
  split; [by rewrite E1|].
  unfold r2. rewrite E1. simpl snd.
  apply (getSingleton_truthy_again code (S fuel) fuel' key st0); [|done|].
  - by rewrite <- E1.
  - simpl. by rewrite Hs.
Qed.

Example singleton_constructed_once_run :
  let st0 := (registerSingleton "A" Scenario.MAKE_OBJECT initial).2 in
  let r1 := getSingleton Scenario.closures 1 "A" st0 in
  let r2 := getSingleton Scenario.closures 1 "A" r1.2 in
  calls Scenario.MAKE_OBJECT st0 = 0
  /\ r1.1 = Returned (VObj 0)
  /\ calls Scenario.MAKE_OBJECT r1.2 = 1
  /\ r2 = r1.
Proof.
  intros st0 r1 r2.
  destruct (singleton_constructed_once Scenario.closures 0 1 "A"
              Scenario.MAKE_OBJECT initial (VObj 0) I eq_refl eq_refl)
    as (H0 & H1 & H2).
  split; [exact H0|]. split; [reflexivity|]. split; [exact H1|exact H2].
Qed.

(** C1, at a factory that returns falsy values.  After [let last = 0], the
    function [() => (last = last === null ? 0 : null)] is registered under
    ["flip"] and never registered again, and there is no reset.  The first
    [getSingleton] returns [null]; the next two return [0] and [null]: the
    factory runs each time and two consecutive calls return values that
    [===] tells apart. *)
Theorem getSingleton_falsy_not_identical :
  let st0 := (registerSingleton "flip" Scenario.FLIP Scenario.with_last).2 in
  let r1 := getSingleton Scenario.closures 1 "flip" st0 in
  let r2 := getSingleton Scenario.closures 1 "flip" r1.2 in
  let r3 := getSingleton Scenario.closures 1 "flip" r2.2 in
  r1.1 = Returned VNull
  /\ r2.1 = Returned (VNum 0)
  /\ r3.1 = Returned VNull
  /\ strict_eq (VNum 0) VNull = false
  /\ singletons r3.2 = singletons st0
  /\ invocations r3.2 = [Scenario.FLIP; Scenario.FLIP; Scenario.FLIP].
Proof. vm_compute. repeat split. Qed.

(** C2, at a factory that returns a falsy value.  The function [() => 0] is
    registered under ["zero"]: its count is 0 after the registration, 1
    after the first [getSingleton] and 2 after the second, which calls it
    again although the key was neither registered again nor reset. *)
Theorem getSingleton_falsy_called_again :
  let st0 := (registerSingleton "zero" Scenario.ZERO initial).2 in
  let r1 := getSingleton Scenario.closures 1 "zero" st0 in
  let r2 := getSingleton Scenario.closures 1 "zero" r1.2 in
  calls Scenario.ZERO st0 = 0
  /\ r1.1 = Returned (VNum 0)
  /\ calls Scenario.ZERO r1.2 = 1
  /\ heap r1.2 !! 0 = Some (mkSingleton (Some (VNum 0)) Scenario.ZERO)
  /\ r2.1 = Returned (VNum 0)
  /\ calls Scenario.ZERO r2.2 = 2
  /\ singletons r2.2 = singletons st0.
Proof. vm_compute. repeat split. Qed.

(** ** The scenario of a container test *)

Example scenario_singleton_factory_reset :
  let st0 := (registerSingleton "A" Scenario.MAKE_OBJECT initial).2 in
  let a1 := getSingleton Scenario.closures 1 "A" st0 in
  let a2 := getSingleton Scenario.closures 1 "A" a1.2 in
  let st1 := (registerFactory "B" Scenario.MAKE_OBJECT a2.2).2 in
  let b1 := getFactory Scenario.closures 1 "B" st1 in
  let b2 := getFactory Scenario.closures 1 "B" b1.2 in
  let st2 := (reset b2.2).2 in
  a1.1 = Returned (VObj 0) /\ a2.1 = Returned (VObj 0)
  /\ b1.1 = Returned (VObj 1) /\ b2.1 = Returned (VObj 2)
  /\ (getSingleton Scenario.closures 1 "A" st2).1
     = Threw (Error "Singleton not registered: A").
Proof. vm_compute. repeat split. Qed.


(** ** The wiring of [users.ts], run *)

Section UsersRun.
Import Users.

(** Resolving the controller runs the three factories of its chain,
    innermost last, and yields the third object allocated. *)
Example resolve_internal_controller :
  let r := exec closures 3 getInternalUserController booted in
  r.1 = Returned (VObj 2) /\ invocations r.2 = [0; 2; 4].
Proof. vm_compute. split; reflexivity. Qed.

(** A second resolution returns the same controller and runs nothing. *)
Example resolve_internal_controller_twice :
  let r := exec closures 3 getInternalUserController booted in
  exec closures 0 getInternalUserController r.2 = r.
Proof. vm_compute. reflexivity. Qed.

(** With too small a nesting bound the model says so. *)
Example resolve_internal_controller_shallow :
  (exec closures 2 getInternalUserController booted).1 = OutOfFuel.
Proof. vm_compute. reflexivity. Qed.

(** Before [initializeUserDI] the controller is not there. *)
Example resolve_before_boot :
  (exec closures 3 getInternalUserController initial).1
  = Threw (Error "Singleton not registered: InternalUserController").
Proof. vm_compute. reflexivity. Qed.

(** The test's set-up after the production wiring: the controller is built
    by the test's three functions on the mock repository, and the keys of
    the external chain are gone. *)
Example beforeEach_overrides :
  let r := exec closures 3 beforeEach booted in
  r.1 = Returned (VObj 2)
  /\ invocations r.2 = [6; 7; 8]
  /\ cells r.2 !! MOCK_REPOSITORY = Some (VObj 0)
  /\ (exec closures 0 (CallGetSingleton INTERNAL_USER_REPOSITORY) r.2).1
     = Returned (VObj 0)
  /\ (exec closures 3 getExternalUserController r.2).1
     = Threw (Error "Singleton not registered: ExternalUserController").
Proof. vm_compute. repeat split. Qed.

(** A use case registered without its repository: resolving it throws the
    error of the missing key and leaves the record of the use case without
    instance; once the repository is registered the next resolution builds
    both. *)
Example usecase_without_repository :
  let st := (registerSingleton INTERNAL_USER_USECASE 2 initial).2 in
  let r1 := getSingleton closures 2 INTERNAL_USER_USECASE st in
  let st1 := (registerSingleton INTERNAL_USER_REPOSITORY 0 r1.2).2 in
  let r2 := getSingleton closures 2 INTERNAL_USER_USECASE st1 in
  r1.1 = Threw (Error "Singleton not registered: InternalUserRepository")
  /\ heap r1.2 !! 0 = Some (mkSingleton None 2)
  /\ r2.1 = Returned (VObj 1)
  /\ invocations r2.2 = [0; 2; 2].
Proof. vm_compute. repeat split. Qed.

End UsersRun.

(** * More of the container's callers *)

(** ** Running scripts step by step *)

Lemma exec_Bind code fuel p k st :
  exec code fuel (Bind p k) st
  = match exec code fuel p st with
    | (Returned v, st') => exec code fuel (k v) st'
    | r => r
    end.
Proof. reflexivity. Qed.

Lemma exec_CallRegisterSingleton code fuel key f st :
  exec code fuel (CallRegisterSingleton key f) st
  = (Returned VUndefined, (registerSingleton key f st).2).
Proof. reflexivity. Qed.

Lemma exec_CallGetSingleton code fuel key st :
  exec code fuel (CallGetSingleton key) st = getSingleton code fuel key st.
Proof. reflexivity. Qed.

Lemma exec_WriteCell code fuel c v st :
  exec code fuel (WriteCell c v) st = (Returned VUndefined, set_cell c v st).
Proof. reflexivity. Qed.

Lemma exec_CallReset code fuel st :
  exec code fuel CallReset st = (Returned VUndefined, (reset st).2).
Proof. reflexivity. Qed.

Lemma exec_NewObject code fuel st :
  exec code fuel NewObject st
  = (Returned (VObj (next_obj st)), (new_object st).2).
Proof. reflexivity. Qed.

(** A factory that resolves a dependency and then builds an object. *)
Lemma getSingleton_dependent code n key l s dep st :
  singletons st !! key = Some l ->
  heap st !! l = Some s ->
  to_boolean (read_instance s) = false ->
  code (factory s) = Bind (CallGetSingleton dep) (fun _ => NewObject) ->
  getSingleton code (S n) key st
  = match getSingleton code n dep (record_call (factory s) st) with
    | (Returned _, st1) =>
        (Returned (VObj (next_obj st1)),
         write_instance l (factory s) (VObj (next_obj st1)) (new_object st1).2)
    | r => r
    end.
Proof.
  intros Hk Hl Hs Hcode.
  rewrite (getSingleton_construct code _ _ _ _ _ Hk Hl Hs), invoke_S, Hcode.
  rewrite exec_Bind, exec_CallGetSingleton.
  destruct (getSingleton code n dep (record_call (factory s) st)) as [[] st1];
    reflexivity.
Qed.

(** A factory that only builds an object. *)
Lemma getSingleton_leaf code n key l s st :
  singletons st !! key = Some l ->
  heap st !! l = Some s ->
  to_boolean (read_instance s) = false ->
  code (factory s) = NewObject ->
  getSingleton code (S n) key st
  = (Returned (VObj (next_obj st)),
     write_instance l (factory s) (VObj (next_obj st))
       (new_object (record_call (factory s) st)).2).
Proof.
  intros Hk Hl Hs Hcode.
  rewrite (getSingleton_construct code _ _ _ _ _ Hk Hl Hs), invoke_S, Hcode.
  reflexivity.
Qed.

(** ** Repository, use case, controller: three layers *)

Section Chain.

Variable code : fid -> prog.
Variables (kr ku kc : string) (fr fu fc : fid).
Hypothesis code_fr : code fr = NewObject.
Hypothesis code_fu : code fu = Bind (CallGetSingleton kr) (fun _ => NewObject).
Hypothesis code_fc : code fc = Bind (CallGetSingleton ku) (fun _ => NewObject).

Lemma resolve_chain n st lr lu lc :
  pending st kr lr fr -> pending st ku lu fu -> pending st kc lc fc ->
  lr <> lu -> lr <> lc -> lu <> lc ->
  let r := getSingleton code (3 + n) kc st in
  r.1 = Returned (VObj (2 + next_obj st))
  /\ invocations r.2 = ([fr; fu; fc] ++ invocations st)%list
  /\ resolved r.2 kr lr fr (VObj (next_obj st))
  /\ resolved r.2 ku lu fu (VObj (1 + next_obj st))
  /\ resolved r.2 kc lc fc (VObj (2 + next_obj st))
  /\ singletons r.2 = singletons st
  /\ factories r.2 = factories st
  /\ cells r.2 = cells st
  /\ next_loc r.2 = next_loc st
  /\ next_obj r.2 = 3 + next_obj st
  /\ (forall l, l <> lr -> l <> lu -> l <> lc -> heap r.2 !! l = heap st !! l).
Proof using All.
  intros [Hkr Hlr] [Hku Hlu] [Hkc Hlc] Hru Hrc Huc r.
  assert (E : r = getSingleton code (S (S (S n))) kc st) by reflexivity.
  rewrite (getSingleton_dependent code _ kc lc _ ku st Hkc Hlc eq_refl code_fc)
    in E.
  projections_in E.
  rewrite (getSingleton_dependent code _ ku lu _ kr (record_call fc st)
             Hku Hlu eq_refl code_fu) in E.
  projections_in E.
  rewrite (getSingleton_leaf code _ kr lr _
             (record_call fu (record_call fc st)) Hkr Hlr eq_refl code_fr) in E.
  projections_in E.
  rewrite E. projections.
  split; [reflexivity|]. split; [reflexivity|].
  unfold resolved. projections.
  split.
  { split; [done|]. by rewrite !lookup_insert_ne, lookup_insert_eq by done. }
  split.
  { split; [done|]. by rewrite lookup_insert_ne, lookup_insert_eq by done. }
  split. { split; [done|]. by rewrite lookup_insert_eq. }
  repeat (split; [reflexivity|]).
  intros l H1 H2 H3. by rewrite !lookup_insert_ne by done.
Qed.

End Chain.

(** X1: a repository factory that builds an object, a use-case factory that
    resolves the repository and builds an object, a controller factory that
    resolves the use case and builds an object, all three registered and
    none resolved yet.  Resolving the controller returns the third object
    built; the factories run once each, the controller's first and the
    repository's last, so that the repository is built first; afterwards
    each of the three records holds its instance, and nothing else in the
    container has changed. *)
Theorem layered_resolution (code : fid -> prog) (kr ku kc : string)
    (fr fu fc : fid) (n : nat) (st : state) (lr lu lc : loc) :
  code fr = NewObject ->
  code fu = Bind (CallGetSingleton kr) (fun _ => NewObject) ->
  code fc = Bind (CallGetSingleton ku) (fun _ => NewObject) ->
  pending st kr lr fr -> pending st ku lu fu -> pending st kc lc fc ->
  lr <> lu -> lr <> lc -> lu <> lc ->
  let r := getSingleton code (3 + n) kc st in
  r.1 = Returned (VObj (2 + next_obj st))
  /\ invocations r.2 = ([fr; fu; fc] ++ invocations st)%list
  /\ resolved r.2 kr lr fr (VObj (next_obj st))
  /\ resolved r.2 ku lu fu (VObj (1 + next_obj st))
  /\ resolved r.2 kc lc fc (VObj (2 + next_obj st))
  /\ singletons r.2 = singletons st
  /\ factories r.2 = factories st
  /\ cells r.2 = cells st
  /\ next_loc r.2 = next_loc st
  /\ next_obj r.2 = 3 + next_obj st
  /\ (forall l, l <> lr -> l <> lu -> l <> lc -> heap r.2 !! l = heap st !! l).
Proof. intros Hr Hu Hc. by apply resolve_chain. Qed.

Lemma layered_resolution_witness :
  let st := register_all users_wiring initial in
  let r := getSingleton Users.closures 3 Users.INTERNAL_USER_CONTROLLER st in
  r.1 = Returned (VObj 2)
  /\ invocations r.2 = [0; 2; 4]
  /\ resolved r.2 Users.INTERNAL_USER_REPOSITORY 0 0 (VObj 0).
Proof.
  intros st r.
  destruct (layered_resolution Users.closures
              Users.INTERNAL_USER_REPOSITORY Users.INTERNAL_USER_USECASE
              Users.INTERNAL_USER_CONTROLLER 0 2 4 0 st 0 2 4
              eq_refl eq_refl eq_refl
              (conj eq_refl eq_refl) (conj eq_refl eq_refl)
              (conj eq_refl eq_refl)
              ltac:(lia) ltac:(lia) ltac:(lia))
    as (H1 & H2 & H3 & _).
  split; [exact H1|]. split; [exact H2|exact H3].
Defined.

(** X2: a registered, not yet resolved singleton whose factory starts by
    resolving a key that is not registered.  Resolving it throws the
    not-registered error of the missing key, not of its own; its factory
    has been called once and its record still holds no instance.  Once the
    missing key is registered with a factory that builds an object, the
    next resolution builds both. *)
Theorem missing_dependency_surfaces (code : fid -> prog) (n : nat)
    (key dep : string) (l : loc) (f g : fid) (k : value -> prog)
    (st : state) :
  pending st key l f ->
  code f = Bind (CallGetSingleton dep) k ->
  singletons st !! dep = None ->
  let failed := record_call f st in
  getSingleton code (S n) key st
  = (Threw (Error ("Singleton not registered: " +:+ dep)), failed)
  /\ pending failed key l f
  /\ (k = (fun _ => NewObject) -> code g = NewObject -> l < next_loc st ->
      (getSingleton code (2 + n) key (registerSingleton dep g failed).2).1
      = Returned (VObj (1 + next_obj st))).
Proof.
  intros [Hk Hl] Hcode Hdep failed. split; [|split; [done|]].
  - rewrite (getSingleton_construct code _ _ _ _ _ Hk Hl eq_refl).
    cbn [factory]. rewrite invoke_S, Hcode, exec_Bind, exec_CallGetSingleton.
    by rewrite getSingleton_absent.
  - intros -> Hg Hlt.
    assert (Hne : dep <> key) by congruence.
    set (st1 := (registerSingleton dep g failed).2).
    assert (Hk1 : singletons st1 !! key = Some l).
    { unfold st1. rewrite registerSingleton_spec. cbn [snd singletons].
      by rewrite lookup_insert_ne. }
    assert (Hl1 : heap st1 !! l = Some (mkSingleton None f)).
    { unfold st1. rewrite registerSingleton_spec. cbn [snd heap].
      rewrite lookup_insert_ne; [done|]. unfold failed. cbn [next_loc record_call].
      lia. }
    destruct (registerSingleton_lookup dep g failed) as [Hkd Hld].
    fold st1 in Hkd, Hld.
    change (2 + n) with (S (S n)).
    rewrite (getSingleton_dependent code _ key l _ dep st1 Hk1 Hl1 eq_refl Hcode).
    cbn [factory].
    rewrite (getSingleton_leaf code _ dep _ _ (record_call f st1) Hkd Hld
               eq_refl Hg).
    reflexivity.
Qed.

Lemma missing_dependency_surfaces_witness :
  let st := (registerSingleton Users.INTERNAL_USER_USECASE 2 initial).2 in
  let r := getSingleton Users.closures 1 Users.INTERNAL_USER_USECASE st in
  r.1 = Threw (Error "Singleton not registered: InternalUserRepository")
  /\ pending r.2 Users.INTERNAL_USER_USECASE 0 2
  /\ (getSingleton Users.closures 2 Users.INTERNAL_USER_USECASE
        (registerSingleton Users.INTERNAL_USER_REPOSITORY 0 r.2).2).1
     = Returned (VObj 1).
Proof.
  intros st r.
  destruct (missing_dependency_surfaces Users.closures 0
              Users.INTERNAL_USER_USECASE Users.INTERNAL_USER_REPOSITORY
              0 2 0 (fun _ => NewObject) st
              (conj eq_refl eq_refl) eq_refl eq_refl)
    as (H1 & H2 & H3).
  assert (E : r = (Threw (Error "Singleton not registered: InternalUserRepository"),
                   record_call 2 st)) by exact H1.
  rewrite E. cbn [fst snd].
  split; [reflexivity|]. split; [exact H2|].
  apply H3; [reflexivity|reflexivity|]. simpl. lia.
Defined.

(** ** [initializeUserDI] and the start of the router *)

Lemma pending_new key f st :
  pending_below (registerSingleton key f st).2 key (next_loc st) f.
Proof.
  split; [apply registerSingleton_lookup|].
  cbn [registerSingleton alloc_singleton set_singletons snd next_loc]. lia.
Qed.

Lemma pending_keep key l f k' g st :
  k' <> key ->
  pending_below st key l f ->
  pending_below (registerSingleton k' g st).2 key l f.
Proof.
  intros Hne [[Hk Hl] Hlt]. rewrite registerSingleton_spec.
  cbn [snd]. split; [split|]; cbn [singletons heap next_loc].
  - by rewrite lookup_insert_ne.
  - rewrite lookup_insert_ne; [done|lia].
  - lia.
Qed.

Lemma initializeUserDI_run fuel st :
  exec Users.closures fuel Users.initializeUserDI st
  = (Returned VUndefined, register_all users_wiring st).
Proof.
  unfold Users.initializeUserDI.
  repeat (rewrite exec_Bind, exec_CallRegisterSingleton).
  rewrite exec_CallRegisterSingleton.
  unfold users_wiring. cbn [register_all register]. reflexivity.
Qed.

Lemma wiring_pending st i key f :
  users_wiring !! i = Some (RegSingleton key f) ->
  pending (register_all users_wiring st) key (i + next_loc st) f.
Proof.
  intros Hi. unfold users_wiring. cbn [register_all register].
  do 6 (destruct i as [|i];
        [inversion Hi; subst;
         refine (proj1 _);
         repeat (apply pending_keep; [discriminate|]);
         apply pending_new|]).
  by destruct i.
Qed.

(** X3: from any state, [initializeUserDI] returns normally and calls no
    factory: the six keys of [DI_KEYS] are registered, in the order of the
    source, each with a fresh record that holds its factory and no
    instance; the factory map, the objects and the captured variables are
    left as they were. *)
Theorem initializeUserDI_registers_lazily (fuel : nat) (st : state) :
  let r := exec Users.closures fuel Users.initializeUserDI st in
  r = (Returned VUndefined, register_all users_wiring st)
  /\ invocations r.2 = invocations st
  /\ factories r.2 = factories st
  /\ next_obj r.2 = next_obj st
  /\ cells r.2 = cells st
  /\ next_loc r.2 = 6 + next_loc st
  /\ (forall i key f,
        users_wiring !! i = Some (RegSingleton key f) ->
        pending r.2 key (i + next_loc st) f).
Proof.
  intros r. unfold r. rewrite initializeUserDI_run. cbn [snd].
  split; [reflexivity|]. do 5 (split; [reflexivity|]).
  intros i key f. apply wiring_pending.
Qed.

Lemma initializeUserDI_registers_lazily_witness :
  let r := exec Users.closures 0 Users.initializeUserDI initial in
  invocations r.2 = []
  /\ pending r.2 Users.EXTERNAL_USER_USECASE 3 3.
Proof.
  intros r.
  destruct (initializeUserDI_registers_lazily 0 initial)
    as (_ & H1 & _ & _ & _ & _ & H2).
  split; [exact H1|].
  exact (H2 3 Users.EXTERNAL_USER_USECASE 3 eq_refl).
Defined.

(** X4: from any state, the start of the router leaves in [controller] and
    [externalController] two different objects, the third and the sixth
    built.  The six factories have run once each, the internal chain before
    the external one and, within a chain, the repository's last; every one
    of the six records holds its instance. *)
Theorem router_init_builds_both_chains (n : nat) (st : state) :
  let r := exec Users.closures (3 + n) Router.init st in
  r.1 = Returned VUndefined
  /\ cells r.2 !! Router.CONTROLLER = Some (VObj (2 + next_obj st))
  /\ cells r.2 !! Router.EXTERNAL_CONTROLLER = Some (VObj (5 + next_obj st))
  /\ invocations r.2 = ([1; 3; 5; 0; 2; 4] ++ invocations st)%list
  /\ resolved r.2 Users.INTERNAL_USER_REPOSITORY (next_loc st) 0
       (VObj (next_obj st))
  /\ resolved r.2 Users.INTERNAL_USER_USECASE (2 + next_loc st) 2
       (VObj (1 + next_obj st))
  /\ resolved r.2 Users.INTERNAL_USER_CONTROLLER (4 + next_loc st) 4
       (VObj (2 + next_obj st))
  /\ resolved r.2 Users.EXTERNAL_USER_REPOSITORY (1 + next_loc st) 1
       (VObj (3 + next_obj st))
  /\ resolved r.2 Users.EXTERNAL_USER_USECASE (3 + next_loc st) 3
       (VObj (4 + next_obj st))
  /\ resolved r.2 Users.EXTERNAL_USER_CONTROLLER (5 + next_loc st) 5
       (VObj (5 + next_obj st)).
Proof.
  intros r. unfold r, Router.init.
  rewrite exec_Bind, initializeUserDI_run.
  set (st0 := register_all users_wiring st).
  pose proof (wiring_pending st 0 _ _ eq_refl) as P0.
  pose proof (wiring_pending st 1 _ _ eq_refl) as P1.
  pose proof (wiring_pending st 2 _ _ eq_refl) as P2.
  pose proof (wiring_pending st 3 _ _ eq_refl) as P3.
  pose proof (wiring_pending st 4 _ _ eq_refl) as P4.
  pose proof (wiring_pending st 5 _ _ eq_refl) as P5.
  fold st0 in P0, P1, P2, P3, P4, P5. cbn [Nat.add] in *.
  assert (Ho : next_obj st0 = next_obj st) by reflexivity.
  assert (Hi : invocations st0 = invocations st) by reflexivity.
  clearbody st0.
  rewrite exec_Bind. unfold Users.getInternalUserController.
  rewrite exec_CallGetSingleton.
  destruct (resolve_chain Users.closures Users.INTERNAL_USER_REPOSITORY
              Users.INTERNAL_USER_USECASE Users.INTERNAL_USER_CONTROLLER 0 2 4
              eq_refl eq_refl eq_refl n st0 _ _ _ P0 P2 P4
              ltac:(lia) ltac:(lia) ltac:(lia))
    as (R1 & L1 & Ra & Rb & Rc & S1 & _ & C1 & _ & O1 & F1).
  cbn [Nat.add] in R1, L1, Ra, Rb, Rc, S1, C1, O1, F1.
  destruct (getSingleton Users.closures (S (S (S n)))
              Users.INTERNAL_USER_CONTROLLER st0) as [o1 s1].
  cbn [fst snd] in *. subst o1. cbv beta iota.
  rewrite exec_Bind, exec_WriteCell.
  rewrite exec_Bind. unfold Users.getExternalUserController.
  rewrite exec_CallGetSingleton.
  set (s2 := set_cell Router.CONTROLLER (VObj (S (S (next_obj st0)))) s1).
  assert (P1' : pending s2 Users.EXTERNAL_USER_REPOSITORY (S (next_loc st)) 1).
  { destruct P1 as [Hk Hl]. split; unfold s2; cbn [singletons heap set_cell].
    - by rewrite S1.
    - rewrite F1; [done|lia..]. }
  assert (P3' : pending s2 Users.EXTERNAL_USER_USECASE
                  (S (S (S (next_loc st)))) 3).
  { destruct P3 as [Hk Hl]. split; unfold s2; cbn [singletons heap set_cell].
    - by rewrite S1.
    - rewrite F1; [done|lia..]. }
  assert (P5' : pending s2 Users.EXTERNAL_USER_CONTROLLER
                  (S (S (S (S (S (next_loc st)))))) 5).
  { destruct P5 as [Hk Hl]. split; unfold s2; cbn [singletons heap set_cell].
    - by rewrite S1.
    - rewrite F1; [done|lia..]. }
  destruct (resolve_chain Users.closures Users.EXTERNAL_USER_REPOSITORY
              Users.EXTERNAL_USER_USECASE Users.EXTERNAL_USER_CONTROLLER 1 3 5
              eq_refl eq_refl eq_refl n s2 _ _ _ P1' P3' P5'
              ltac:(lia) ltac:(lia) ltac:(lia))
    as (R2 & L2 & Rd & Re & Rf & S2 & _ & C2 & _ & O2 & F2).
  cbn [Nat.add] in R2, L2, Rd, Re, Rf, S2, C2, O2, F2.
  destruct (getSingleton Users.closures (S (S (S n)))
              Users.EXTERNAL_USER_CONTROLLER s2) as [o2 s3].
  cbn [fst snd] in *. subst o2. cbv beta iota.
  rewrite exec_WriteCell. cbn [fst snd].
  assert (Os2 : next_obj s2 = S (S (S (next_obj st)))).
  { unfold s2. cbn [next_obj set_cell]. rewrite O1, Ho. reflexivity. }
  rewrite Os2 in *. rewrite Ho in *.
  split; [reflexivity|].
  split.
  { cbn [cells set_cell]. rewrite lookup_insert_ne by done.
    rewrite C2. unfold s2. cbn [cells set_cell].
    by rewrite lookup_insert_eq, Ho. }
  split. { cbn [cells set_cell]. by rewrite lookup_insert_eq. }
  split.
  { cbn [invocations set_cell]. rewrite L2. unfold s2.
    cbn [invocations set_cell]. rewrite L1, Hi. reflexivity. }
  assert (Keep : forall key l f v, resolved s1 key l f v ->
            l <> S (next_loc st) -> l <> S (S (S (next_loc st))) ->
            l <> S (S (S (S (S (next_loc st))))) ->
            resolved (set_cell Router.EXTERNAL_CONTROLLER
                        (VObj (S (S (S (S (S (next_obj st))))))) s3)
                     key l f v).
  { intros key l f v [Hk Hl] H1 H2 H3. split; cbn [singletons heap set_cell].
    - rewrite S2. unfold s2. cbn [singletons set_cell]. done.
    - rewrite F2 by done. unfold s2. cbn [heap set_cell]. done. }
  split; [apply Keep; [done|lia..]|].
  split; [apply Keep; [done|lia..]|].
  split; [apply Keep; [done|lia..]|].
  unfold resolved in *. cbn [singletons heap set_cell].
  done.
Qed.

(** X5: from any state, whatever was registered or resolved in it, the
    container part of the test's [beforeEach] returns a controller built by
    the test's own three factories, which run once each; the repository
    singleton is the object kept in [mockRepository]; the factory map is
    empty and no other singleton key is registered any more, so resolving
    one throws the not-registered error. *)
Theorem beforeEach_isolates (n : nat) (st : state) :
  let r := exec Users.closures (3 + n) Users.beforeEach st in
  r.1 = Returned (VObj (2 + next_obj st))
  /\ cells r.2 !! Users.MOCK_REPOSITORY = Some (VObj (next_obj st))
  /\ invocations r.2 = ([6; 7; 8] ++ invocations st)%list
  /\ resolved r.2 Users.INTERNAL_USER_REPOSITORY (next_loc st) 6
       (VObj (next_obj st))
  /\ resolved r.2 Users.INTERNAL_USER_USECASE (1 + next_loc st) 7
       (VObj (1 + next_obj st))
  /\ resolved r.2 Users.INTERNAL_USER_CONTROLLER (2 + next_loc st) 8
       (VObj (2 + next_obj st))
  /\ factories r.2 = ∅
  /\ (forall key,
        key <> Users.INTERNAL_USER_REPOSITORY ->
        key <> Users.INTERNAL_USER_USECASE ->
        key <> Users.INTERNAL_USER_CONTROLLER ->
        singletons r.2 !! key = None
        /\ getSingleton Users.closures n key r.2
           = (Threw (Error ("Singleton not registered: " +:+ key)), r.2)).
Proof.
  intros r. unfold r, Users.beforeEach.
  rewrite exec_Bind, exec_CallReset.
  rewrite exec_Bind, exec_NewObject.
  rewrite exec_Bind, exec_WriteCell.
  do 3 rewrite exec_Bind, exec_CallRegisterSingleton.
  rewrite exec_CallGetSingleton.
  set (w := set_cell Users.MOCK_REPOSITORY (VObj (next_obj (reset st).2))
              (new_object (reset st).2).2).
  set (b := (registerSingleton Users.INTERNAL_USER_CONTROLLER 8 _).2).
  assert (Pr : pending b Users.INTERNAL_USER_REPOSITORY (next_loc st) 6).
  { refine (proj1 _). unfold b.
    do 2 (apply pending_keep; [discriminate|]). apply (pending_new _ _ w). }
  assert (Pu : pending b Users.INTERNAL_USER_USECASE (S (next_loc st)) 7).
  { refine (proj1 _). unfold b.
    apply pending_keep; [discriminate|].
    apply (pending_new _ _ (registerSingleton _ _ w).2). }
  assert (Pc : pending b Users.INTERNAL_USER_CONTROLLER
                 (S (S (next_loc st))) 8).
  { refine (proj1 _). unfold b.
    apply (pending_new _ _
             (registerSingleton _ _ (registerSingleton _ _ w).2).2). }
  assert (Hs : forall key,
            key <> Users.INTERNAL_USER_REPOSITORY ->
            key <> Users.INTERNAL_USER_USECASE ->
            key <> Users.INTERNAL_USER_CONTROLLER ->
            singletons b !! key = None).
  { intros key H1 H2 H3. unfold b.
    rewrite !registerSingleton_spec. cbn [snd singletons].
    rewrite !lookup_insert_ne by done. unfold w. cbn. apply lookup_empty. }
  assert (Hf : factories b = ∅) by reflexivity.
  assert (Hc : cells b !! Users.MOCK_REPOSITORY = Some (VObj (next_obj st))).
  { unfold b, w. cbn. apply lookup_insert_eq. }
  assert (Ho : next_obj b = S (next_obj st)) by reflexivity.
  assert (Hi : invocations b = invocations st) by reflexivity.
  destruct Pr as [Hkr Hlr], Pu as [Hku Hlu], Pc as [Hkc Hlc].
  clearbody b. clear w.
  cbn [Nat.add].
  rewrite (getSingleton_dependent Users.closures _ _ _ _
             Users.INTERNAL_USER_USECASE b Hkc Hlc eq_refl eq_refl).
  projections.
  rewrite (getSingleton_dependent Users.closures _ _ _ _
             Users.INTERNAL_USER_REPOSITORY (record_call 8 b)
             Hku Hlu eq_refl eq_refl).
  projections.
  rewrite (getSingleton_construct Users.closures _ _ _ _
             (record_call 7 (record_call 8 b)) Hkr Hlr eq_refl).
  projections. rewrite invoke_S.
  change (Users.closures 6) with (ReadCell Users.MOCK_REPOSITORY).
  change (exec Users.closures n (ReadCell Users.MOCK_REPOSITORY)
            (record_call 6 (record_call 7 (record_call 8 b))))
    with (Returned (default VUndefined (cells b !! Users.MOCK_REPOSITORY)),
          record_call 6 (record_call 7 (record_call 8 b))).
  rewrite Hc. cbn [default]. projections.
  rewrite Ho, Hi, Hf.
  split; [reflexivity|]. split; [done|]. split; [reflexivity|].
  unfold resolved. projections.
  split.
  { split; [done|]. by rewrite !lookup_insert_ne, lookup_insert_eq by lia. }
  split.
  { split; [done|]. by rewrite lookup_insert_ne, lookup_insert_eq by lia. }
  split. { split; [done|]. by rewrite lookup_insert_eq. }
  split; [done|].
  intros key H1 H2 H3. split; [by apply Hs|].
  apply getSingleton_absent. projections. by apply Hs.
Qed.

Lemma beforeEach_isolates_witness :
  let r := exec Users.closures 3 Users.beforeEach Users.booted in
  r.1 = Returned (VObj 2)
  /\ getSingleton Users.closures 0 Users.EXTERNAL_USER_CONTROLLER r.2
     = (Threw (Error "Singleton not registered: ExternalUserController"), r.2).
Proof.
  intros r.
  destruct (beforeEach_isolates 0 Users.booted)
    as (H1 & _ & _ & _ & _ & _ & _ & H2).
  split; [exact H1|].
  apply (H2 Users.EXTERNAL_USER_CONTROLLER); discriminate.
Defined.

(** ** Reset and new instances *)

Lemma first_resolution_object (code : fid -> prog) n key f st v :
  constructs_object (code f) ->
  (getSingleton code (S n) key (registerSingleton key f st).2).1 = Returned v ->
  exists l, v = VObj l /\ next_obj st <= l
            /\ next_obj (getSingleton code (S n) key
                           (registerSingleton key f st).2).2 = S l.
Proof.
  intros Hobj. rewrite register_then_getSingleton, invoke_S.
  destruct (exec code n (code f) (record_call f (registerSingleton key f st).2))
    as [o s'] eqn:Hrun.
  destruct o; try done. cbn [fst snd]. intros [= ->].
  destruct (constructs_object_result code _ _ _ _ _ Hobj Hrun)
    as (l & -> & Hle & Hn).
  exists l. split; [done|]. split; [exact Hle|exact Hn].
Qed.

(** X6: a factory whose body ends by building an object is registered and
    resolved, then the container is reset, the same factory is registered
    under the same key and resolved again.  When both resolutions return,
    they return two different objects: after a reset nothing of an earlier
    instance is handed out again. *)
Theorem reset_then_register_builds_anew (code : fid -> prog) (n m : nat)
    (key : string) (f : fid) (st : state) (v1 v2 : value) :
  constructs_object (code f) ->
  let r1 := getSingleton code (S n) key (registerSingleton key f st).2 in
  let r2 := getSingleton code (S m) key
              (registerSingleton key f (reset r1.2).2).2 in
  r1.1 = Returned v1 ->
  r2.1 = Returned v2 ->
  exists l1 l2, v1 = VObj l1 /\ v2 = VObj l2 /\ l1 < l2
                /\ strict_eq v1 v2 = false.
Proof.
  intros Hobj r1 r2 H1 H2.
  destruct (first_resolution_object code n key f st v1 Hobj H1)
    as (l1 & -> & _ & N1).
  destruct (first_resolution_object code m key f _ v2 Hobj H2)
    as (l2 & -> & Hle & _).
  change (next_obj (reset r1.2).2) with (next_obj r1.2) in Hle.
  unfold r1 in Hle. rewrite N1 in Hle.
  exists l1, l2. split; [done|]. split; [done|]. split; [lia|].
  simpl. apply Nat.eqb_neq. lia.
Qed.

Lemma reset_then_register_builds_anew_witness :
  let r1 := getSingleton Scenario.closures 1 "A"
              (registerSingleton "A" Scenario.MAKE_OBJECT initial).2 in
  let r2 := getSingleton Scenario.closures 1 "A"
              (registerSingleton "A" Scenario.MAKE_OBJECT (reset r1.2).2).2 in
  r1.1 = Returned (VObj 0) /\ r2.1 = Returned (VObj 1)
  /\ exists l1 l2, VObj 0 = VObj l1 /\ VObj 1 = VObj l2 /\ l1 < l2.
Proof.
  intros r1 r2. split; [reflexivity|]. split; [reflexivity|].
  destruct (reset_then_register_builds_anew Scenario.closures 0 0 "A"
              Scenario.MAKE_OBJECT initial (VObj 0) (VObj 1)
              (or_introl eq_refl) eq_refl eq_refl)
    as (l1 & l2 & E1 & E2 & Hlt & _).
  exists l1, l2. split; [exact E1|]. split; [exact E2|exact Hlt].
Defined.

(** ** Factories that resolve each other *)

Section Cycle.

Variable code : fid -> prog.
Variables (ka kb : string) (fa fb : fid) (na nb : value -> prog).
Hypothesis code_fa : code fa = Bind (CallGetSingleton kb) na.
Hypothesis code_fb : code fb = Bind (CallGetSingleton ka) nb.

Lemma cycle_never_finishes fuel :
  forall st, unresolved st ka fa -> unresolved st kb fb ->
  (getSingleton code fuel ka st).1 = OutOfFuel
  /\ (getSingleton code fuel kb st).1 = OutOfFuel.
Proof using All.
  induction fuel as [|n IH]; intros st Ha Hb.
  - destruct Ha as (la & sa & Hka & Hla & <- & Hsa).
    destruct Hb as (lb & sb & Hkb & Hlb & <- & Hsb).
    rewrite (getSingleton_construct code _ _ _ _ _ Hka Hla Hsa).
    rewrite (getSingleton_construct code _ _ _ _ _ Hkb Hlb Hsb).
    split; reflexivity.
  - assert (Step : forall f, unresolved (record_call f st) ka fa
                             /\ unresolved (record_call f st) kb fb).
    { intros f.
      split; [destruct Ha as (l & s & ?) | destruct Hb as (l & s & ?)];
        exists l, s; exact H. }
    destruct Ha as (la & sa & Hka & Hla & Efa & Hsa).
    destruct Hb as (lb & sb & Hkb & Hlb & Efb & Hsb).
    rewrite (getSingleton_construct code _ _ _ _ _ Hka Hla Hsa).
    rewrite (getSingleton_construct code _ _ _ _ _ Hkb Hlb Hsb).
    rewrite !invoke_S, Efa, Efb, code_fa, code_fb, !exec_Bind,
      !exec_CallGetSingleton.
    destruct (Step fa) as [Sa1 Sb1]. destruct (Step fb) as [Sa2 Sb2].
    destruct (IH _ Sa1 Sb1) as [_ Eb]. destruct (IH _ Sa2 Sb2) as [Ea _].
    destruct (getSingleton code n kb (record_call fa st)) as [o1 s1].
    destruct (getSingleton code n ka (record_call fb st)) as [o2 s2].
    cbn [fst] in Ea, Eb. subst o1 o2. split; reflexivity.
Qed.

End Cycle.

(** X7: the container detects no cycle.  When the factory of [ka] starts by
    resolving [kb] and the factory of [kb] starts by resolving [ka] (the two
    may be one key with a factory that resolves itself), and neither holds a
    truthy instance, then resolving either never comes to a result: for
    every bound on the nesting of factory calls the run is cut off at the
    bound. *)
Theorem circular_dependency_never_resolves (code : fid -> prog)
    (ka kb : string) (fa fb : fid) (na nb : value -> prog) (fuel : nat)
    (st : state) :
  code fa = Bind (CallGetSingleton kb) na ->
  code fb = Bind (CallGetSingleton ka) nb ->
  unresolved st ka fa -> unresolved st kb fb ->
  (getSingleton code fuel ka st).1 = OutOfFuel
  /\ (getSingleton code fuel kb st).1 = OutOfFuel.
Proof. intros Ha Hb. by apply (cycle_never_finishes code ka kb fa fb na nb). Qed.

Lemma circular_dependency_never_resolves_witness :
  (getSingleton Circular.closures 7 "A" Circular.wired).1 = OutOfFuel
  /\ (getSingleton Circular.closures 7 "B" Circular.wired).1 = OutOfFuel.
Proof.
  apply (circular_dependency_never_resolves Circular.closures "A" "B" 0 1
           (fun _ => NewObject) (fun _ => NewObject) 7 Circular.wired
           eq_refl eq_refl).
  - exists 0, (mkSingleton None 0). repeat split.
  - exists 1, (mkSingleton None 1). repeat split.
Defined.

(** ** Singletons with a truthy instance *)


(** A resolution made from inside the factory of the same key: it returns
    the first object, and the enclosing resolution, still running at that
    moment, assigns the second one when its factory returns.  Later calls
    return the second. *)
Example enclosing_resolution_overwrites :
  let st := (registerSingleton "self" Reentrant.BUILDS_AFTER
               Reentrant.start).2 in
  let inner_start :=
    set_cell Reentrant.ENTERED (VBool true)
             (record_call Reentrant.BUILDS_AFTER st) in
  let inner := getSingleton Reentrant.closures 1 "self" inner_start in
  let outer := getSingleton Reentrant.closures 2 "self" st in
  inner.1 = Returned (VObj 0)
  /\ outer.1 = Returned (VObj 1)
  /\ getSingleton Reentrant.closures 0 "self" outer.2
     = (Returned (VObj 1), outer.2).
Proof.
  intros st inner_start inner outer.
  split; [vm_compute; reflexivity|]. split; vm_compute; reflexivity.
Qed.




(** X9: a factory that does not call the container and returns a truthy
    value is not called by [registerSingleton], is called exactly once by
    the first [getSingleton], and is not called by the second, which gives
    the same result and the same state as the first. *)
Theorem singleton_truthy_constructed_once (code : fid -> prog)
    (fuel fuel' : nat) (key : string) (f : fid) (st : state) (v : value) :
  container_free (code f) ->
  let st0 := (registerSingleton key f st).2 in
  let r1 := getSingleton code (S fuel) key st0 in
  let r2 := getSingleton code fuel' key r1.2 in
  r1.1 = Returned v ->
  to_boolean v = true ->
  calls f st0 = calls f st
  /\ calls f r1.2 = S (calls f st)
  /\ r2 = r1
  /\ calls f r2.2 = S (calls f st).
Proof.
  intros Hfree st0 r1 r2 Hv Ht.
  destruct (singleton_constructed_once code fuel fuel' key f st v Hfree Hv Ht)
    as (H0 & H1 & H2).
  split; [exact H0|]. split; [exact H1|]. split; [exact H2|].
  unfold r2. fold r1. replace (getSingleton code fuel' key r1.2) with r1.
  exact H1.
Qed.

Lemma singleton_truthy_constructed_once_witness :
  let st0 := (registerSingleton "A" Scenario.MAKE_OBJECT initial).2 in
  let r1 := getSingleton Scenario.closures 1 "A" st0 in
  let r2 := getSingleton Scenario.closures 1 "A" r1.2 in
  calls Scenario.MAKE_OBJECT st0 = 0
  /\ calls Scenario.MAKE_OBJECT r1.2 = 1
  /\ calls Scenario.MAKE_OBJECT r2.2 = 1.
Proof.
  intros st0 r1 r2.
  destruct (singleton_truthy_constructed_once Scenario.closures 0 1 "A"
              Scenario.MAKE_OBJECT initial (VObj 0) I eq_refl eq_refl)
    as (H0 & H1 & _ & H3).
  split; [exact H0|]. split; [exact H1|exact H3].
Defined.

(** * The users resource *)

(** ** Searching a list of users *)

Lemma has_id_true id u : has_id id u = true <-> User.id u = id.
Proof. unfold has_id. apply Z.eqb_eq. Qed.

Lemma has_id_false id u : has_id id u = false <-> User.id u <> id.
Proof. unfold has_id. apply Z.eqb_neq. Qed.

Lemma findIndex_None {A} (p : A -> bool) l :
  findIndex p l = None <-> forall x, x ∈ l -> p x = false.
Proof.
  induction l as [|x l IH]; simpl.
  - split; [|done]. intros _ x Hx. by apply not_elem_of_nil in Hx.
  - destruct (p x) eqn:Hp.
    + split; [done|]. intros H. rewrite (H x) in Hp; [done|]. left.
    + rewrite fmap_None, IH. split.
      * intros H y Hy. apply elem_of_cons in Hy as [->|Hy]; auto.
      * intros H y Hy. apply H. by right.
Qed.

Lemma findIndex_Some {A} (p : A -> bool) l i :
  findIndex p l = Some i <->
  exists x, l !! i = Some x /\ p x = true
            /\ forall j y, j < i -> l !! j = Some y -> p y = false.
Proof.
  revert i. induction l as [|x l IH]; intros i; simpl.
  - split; [done|]. by intros (y & Hy & _).
  - destruct (p x) eqn:Hp.
    + split.
      * intros [= <-]. exists x. repeat split; [done|]. intros; lia.
      * intros (y & Hy & Hpy & Hlt). destruct i as [|i]; [done|].
        specialize (Hlt 0 x ltac:(lia) eq_refl). congruence.
    + rewrite fmap_Some. split.
      * intros (i' & Hi' & ->). apply IH in Hi' as (y & Hy & Hpy & Hlt).
        exists y. repeat split; [done..|].
        intros [|j] z Hj Hz; simpl in Hz; [congruence|].
        apply (Hlt j); [lia|done].
      * intros (y & Hy & Hpy & Hlt). destruct i as [|i].
        { simpl in Hy. congruence. }
        exists i. split; [|done]. apply IH. exists y. repeat split; [done..|].
        intros j z Hj Hz. apply (Hlt (S j)); [lia|done].
Qed.

Lemma find_findIndex {A} (p : A -> bool) l :
  find p l = findIndex p l ≫= (l !!.).
Proof.
  induction l as [|x l IH]; simpl; [done|].
  destruct (p x); [done|]. rewrite IH.
  by destruct (findIndex p l).
Qed.

Lemma findIndex_absent id us :
  findIndex (has_id id) us = None <-> id ∉ ids us.
Proof.
  rewrite findIndex_None. unfold ids. rewrite list_elem_of_fmap. split.
  - intros H (u & -> & Hu). apply H in Hu. by apply has_id_false in Hu.
  - intros H u Hu. apply has_id_false. intros <-. apply H. eauto.
Qed.

Lemma findIndex_present id us :
  id ∈ ids us -> exists idx u, findIndex (has_id id) us = Some idx
                               /\ us !! idx = Some u /\ User.id u = id.
Proof.
  intros Hin. destruct (findIndex (has_id id) us) as [idx|] eqn:E.
  - apply findIndex_Some in E as (u & Hu & Hp & _).
    exists idx, u. by rewrite has_id_true in Hp.
  - by apply findIndex_absent in E.
Qed.

Lemma find_absent id us : id ∉ ids us -> find (has_id id) us = None.
Proof.
  intros H. apply findIndex_absent in H. by rewrite find_findIndex, H.
Qed.

Lemma Math_max_ge x xs : (x <= Math_max x xs)%Z
                         /\ forall y, y ∈ xs -> (y <= Math_max x xs)%Z.
Proof.
  unfold Math_max. revert x. induction xs as [|z xs IH]; intros x; simpl.
  - split; [lia|]. intros y Hy. by apply not_elem_of_nil in Hy.
  - destruct (IH (Z.max x z)) as [H1 H2]. split; [lia|].
    intros y Hy. apply elem_of_cons in Hy as [->|Hy]; [lia|auto].
Qed.

Lemma find_append {A} (p : A -> bool) l1 l2 :
  find p (l1 ++ l2)%list
  = match find p l1 with Some x => Some x | None => find p l2 end.
Proof. induction l1 as [|x l1 IH]; simpl; [done|]. by destruct (p x). Qed.

Lemma find_insert_other {A} (q : A -> bool) l idx x x' :
  l !! idx = Some x -> q x = false -> q x' = false ->
  find q (<[idx := x']> l) = find q l.
Proof.
  revert idx. induction l as [|y l IH]; intros idx Hx Hq Hq'; [done|].
  destruct idx as [|idx]; simpl in *.
  - inversion Hx; subst. by rewrite Hq, Hq'.
  - destruct (q y); [done|]. by apply IH.
Qed.

Lemma find_insert_found {A} (p : A -> bool) l idx x' :
  findIndex p l = Some idx -> p x' = true ->
  find p (<[idx := x']> l) = Some x'.
Proof.
  revert idx. induction l as [|y l IH]; intros idx Hi Hp; [done|].
  simpl in Hi. destruct (p y) eqn:Hy.
  - inversion Hi; subst. simpl. by rewrite Hp.
  - apply fmap_Some in Hi as (i & Hi & ->). simpl. rewrite Hy. by apply IH.
Qed.

Lemma find_delete_other {A} (q : A -> bool) l idx x :
  l !! idx = Some x -> q x = false ->
  find q (base.delete idx l) = find q l.
Proof.
  revert idx. induction l as [|y l IH]; intros idx Hx Hq; [done|].
  destruct idx as [|idx]; simpl in *.
  - inversion Hx; subst. by rewrite Hq.
  - destruct (q y); [done|]. by apply IH.
Qed.

Lemma delete_append_last {A} (p : A -> bool) l x :
  findIndex p l = None -> p x = true ->
  findIndex p (l ++ [x])%list = Some (length l)
  /\ base.delete (length l) (l ++ [x])%list = l.
Proof.
  induction l as [|y l IH]; intros Hn Hp; simpl in *.
  - by rewrite Hp.
  - destruct (p y); [done|]. apply fmap_None in Hn.
    destruct (IH Hn Hp) as [-> ->]. done.
Qed.

Lemma NoDup_delete_absent us idx u :
  NoDup (ids us) -> us !! idx = Some u ->
  User.id u ∉ ids (base.delete idx us).
Proof.
  intros Hnd Hu. unfold ids in *.
  rewrite <- (take_drop_middle us idx u Hu) in Hnd.
  rewrite delete_take_drop. rewrite fmap_app in *. simpl in Hnd.
  apply NoDup_app in Hnd as (_ & Hdis & Hnd).
  apply NoDup_cons in Hnd as [Hnotin _].
  intros Hin. apply elem_of_app in Hin as [Hin|Hin]; [|done].
  apply (Hdis _ Hin). left.
Qed.

(** ** The in-memory repository *)

Section InMemoryFacts.
Import InMemoryUserRepository.

Lemma findById_find id r :
  findById id r = (Fulfilled (find (has_id id) (users r)), r).
Proof. reflexivity. Qed.

Lemma nextId_above us :
  forall v, v ∈ us ->
    (User.id v < match us with
                 | [] => 1
                 | u :: rest => Math_max (User.id u) (User.id <$> rest) + 1
                 end)%Z.
Proof.
  intros v Hv. destruct us as [|u rest]; [by apply not_elem_of_nil in Hv|].
  destruct (Math_max_ge (User.id u) (User.id <$> rest)) as [H1 H2].
  apply elem_of_cons in Hv as [->|Hv]; [lia|].
  assert (User.id v <= Math_max (User.id u) (User.id <$> rest))%Z; [|lia].
  apply H2. by apply list_elem_of_fmap_2.
Qed.

Lemma create_spec data r :
  exists u,
    create data r = (Fulfilled u, mk (users r ++ [u])%list)
    /\ u = user_of_create (User.id u) data
    /\ (users r = [] -> User.id u = 1%Z)
    /\ (forall v, v ∈ users r -> (User.id v < User.id u)%Z)
    /\ (User.id u ∉ ids (users r)).
Proof.
  unfold create.
  set (nextId := match users r with [] => 1%Z | _ => _ end).
  exists (user_of_create nextId data).
  change (User.id (user_of_create nextId data)) with nextId.
  assert (Habove : forall v, v ∈ users r -> (User.id v < nextId)%Z)
    by apply nextId_above.
  split; [done|]. split; [done|]. split.
  { intros E. unfold nextId. by rewrite E. }
  split; [exact Habove|].
  intros Hin. apply list_elem_of_fmap in Hin as (v & Hv & Hin).
  apply Habove in Hin. lia.
Qed.

Lemma ids_insert_same us idx u u' :
  us !! idx = Some u -> User.id u' = User.id u ->
  ids (<[idx := u']> us) = ids us.
Proof.
  intros Hu Hid. unfold ids. rewrite list_fmap_insert, Hid.
  apply list_insert_id. by rewrite list_lookup_fmap, Hu.
Qed.

Lemma findIndex_lookup id us idx :
  findIndex (has_id id) us = Some idx ->
  exists u, us !! idx = Some u /\ User.id u = id.
Proof.
  intros Hi. apply findIndex_Some in Hi as (u & Hu & Hp & _). exists u.
  by rewrite has_id_true in Hp.
Qed.

Lemma update_ids id data r :
  ids (users (update id data r).2)
  = if decide (id ∈ ids (users r)) then ids (users r)
    else (ids (users r) ++ [id])%list.
Proof.
  unfold update. destruct (findIndex (has_id id) (users r)) as [idx|] eqn:E.
  - destruct (findIndex_lookup _ _ _ E) as (u & Hu & Hid). cbn [snd users].
    rewrite (ids_insert_same _ _ u) by done.
    rewrite decide_True; [done|]. unfold ids. rewrite <- Hid.
    apply list_elem_of_fmap_2. by eapply list_elem_of_lookup_2.
  - apply findIndex_absent in E. rewrite decide_False by done.
    cbn [snd users]. unfold ids. by rewrite fmap_app.
Qed.

Lemma patch_ids id data r : ids (users (patch id data r).2) = ids (users r).
Proof.
  unfold patch. destruct (findIndex (has_id id) (users r)) as [idx|] eqn:E;
    [|done].
  destruct (findIndex_lookup _ _ _ E) as (u & Hu & Hid). rewrite Hu.
  cbn [snd users]. by apply (ids_insert_same _ _ u).
Qed.

Lemma delete_ids id r :
  ids (users (delete id r).2) `sublist_of` ids (users r).
Proof.
  unfold delete. destruct (findIndex (has_id id) (users r)) as [idx|] eqn:E;
    [|done].
  cbn [snd users]. unfold ids. rewrite list_fmap_delete.
  apply sublist_delete.
Qed.

Lemma patch_absent id data r :
  id ∉ ids (users r) -> patch id data r = (Fulfilled None, r).
Proof.
  intros Habs. apply findIndex_absent in Habs. unfold patch. by rewrite Habs.
Qed.

Lemma delete_absent id r :
  id ∉ ids (users r) -> delete id r = (Fulfilled false, r).
Proof.
  intros Habs. apply findIndex_absent in Habs. unfold delete. by rewrite Habs.
Qed.

Lemma delete_present_spec id r :
  id ∈ ids (users r) ->
  exists idx u,
    findIndex (has_id id) (users r) = Some idx
    /\ users r !! idx = Some u /\ User.id u = id
    /\ delete id r = (Fulfilled true, mk (base.delete idx (users r))).
Proof.
  intros Hin. destruct (findIndex_present _ _ Hin) as (idx & u & E & Hu & Hid).
  exists idx, u. unfold delete. by rewrite E.
Qed.

Lemma delete_present_gone id r :
  id ∈ ids (users r) -> NoDup (ids (users r)) ->
  id ∉ ids (users (delete id r).2).
Proof.
  intros Hin Hnd.
  destruct (delete_present_spec id r Hin) as (idx & u & E & Hu & Hid & ->).
  cbn [snd users]. rewrite <- Hid. by apply NoDup_delete_absent.
Qed.

Lemma findById_created data r :
  exists u,
    create data r = (Fulfilled u, mk (users r ++ [u])%list)
    /\ findById (User.id u) (create data r).2
       = (Fulfilled (Some u), (create data r).2).
Proof.
  destruct (create_spec data r) as (u & E & _ & _ & _ & Hfresh).
  exists u. split; [done|]. rewrite E. cbn [snd].
  rewrite findById_find. cbn [users]. f_equal. f_equal.
  rewrite find_append, (find_absent _ _ Hfresh). simpl.
  unfold has_id. by rewrite Z.eqb_refl.
Qed.

Lemma create_delete_restore data r u :
  (create data r).1 = Fulfilled u ->
  delete (User.id u) (create data r).2 = (Fulfilled true, r)
  /\ forall data', (create data' r).1
                   = Fulfilled (user_of_create (User.id u) data').
Proof.
  intros Hu.
  destruct (create_spec data r) as (u0 & E & Hu0 & _ & _ & Hfresh).
  rewrite E in Hu |- *. cbn [fst snd] in *. inversion Hu; subst u0.
  split.
  - unfold delete. cbn [users].
    apply findIndex_absent in Hfresh.
    destruct (delete_append_last (has_id (User.id u)) (users r) u Hfresh)
      as [E1 E2]. { by apply has_id_true. }
    rewrite E1, E2. by destruct r.
  - intros data'. unfold create in E |- *. cbn [fst]. injection E as Hid _.
    rewrite <- Hid. reflexivity.
Qed.



(** X11: when the ids of the stored users are pairwise different, they are
    so after [update], [patch] and [delete], whatever the ids; and after
    [create] when the stored ids are safe integers (below [2^53] in absolute
    value), the range in which the [+ 1] of [create] is exact.  Nothing is
    said about [create] outside that range. *)
Theorem ids_stay_distinct (r : t) :
  NoDup (ids (users r)) ->
  (forall data, Forall safe_integer (ids (users r)) ->
                NoDup (ids (users (create data r).2)))
  /\ (forall id data, NoDup (ids (users (update id data r).2)))
  /\ (forall id data, NoDup (ids (users (patch id data r).2)))
  /\ (forall id, NoDup (ids (users (delete id r).2))).
Proof.
  intros Hnd. split; [|split; [|split]].
  - intros data _.
    destruct (create_spec data r) as (u & E & _ & _ & _ & Hfresh).
    rewrite E. cbn [snd users]. unfold ids. rewrite fmap_app.
    apply NoDup_app. split; [done|]. split; [|apply NoDup_singleton].
    intros x Hx Hx'. apply list_elem_of_singleton in Hx'. by subst.
  - intros id data. rewrite update_ids. case_decide; [done|].
    apply NoDup_app. split; [done|]. split; [|apply NoDup_singleton].
    intros x Hx Hx'. apply list_elem_of_singleton in Hx'. by subst.
  - intros id data. by rewrite patch_ids.
  - intros id. eapply sublist_NoDup; [done|apply delete_ids].
Qed.

Lemma ids_stay_distinct_witness :
  NoDup (ids (users (create Sample.newUser Sample.repository).2))
  /\ NoDup (ids (users (update 7 Sample.updatedUser Sample.repository).2))
  /\ NoDup (ids (users (delete 1 Sample.repository).2)).
Proof.
  assert (Hnd : NoDup (ids (users Sample.repository))).
  { apply (bool_decide_unpack _). vm_compute. exact I. }
  assert (Hsafe : Forall safe_integer (ids (users Sample.repository))).
  { repeat constructor; unfold safe_integer; simpl; lia. }
  destruct (ids_stay_distinct Sample.repository Hnd) as (Hc & Hu & _ & Hd).
  split; [by apply Hc|]. split; [apply Hu|apply Hd].
Defined.

(** X12: [update] is an upsert.  It always answers with the user made of
    the id and the request; afterwards the id is found with exactly that
    user, every other id is found as before, and the number of users is the
    same when the id was stored and one more when it was not.  Doing the
    same [update] again changes nothing. *)
Theorem update_is_upsert (id : Z) (data : UpdateUserBody.t) (r : t) :
  let r' := (update id data r).2 in
  (update id data r).1 = Fulfilled (user_of_update id data)
  /\ findById id r' = (Fulfilled (Some (user_of_update id data)), r')
  /\ (forall id', id' <> id -> (findById id' r').1 = (findById id' r).1)
  /\ length (users r')
     = (if decide (id ∈ ids (users r)) then length (users r)
        else S (length (users r)))
  /\ update id data r' = (Fulfilled (user_of_update id data), r').
Proof.
  intros r'. unfold r', update.
  assert (Hself : has_id id (user_of_update id data) = true)
    by (unfold has_id; apply Z.eqb_refl).
  destruct (findIndex (has_id id) (users r)) as [idx|] eqn:E; cbn [fst snd].
  - destruct (findIndex_lookup _ _ _ E) as (u & Hu & Hid).
    assert (Hin : id ∈ ids (users r)).
    { unfold ids. rewrite <- Hid. apply list_elem_of_fmap_2.
      by eapply list_elem_of_lookup_2. }
    split; [done|]. split.
    { rewrite findById_find. cbn [users].
      by rewrite (find_insert_found _ _ _ _ E Hself). }
    split.
    { intros id' Hne. rewrite !findById_find. cbn [users fst]. f_equal.
      apply (find_insert_other _ _ _ u); [done|..]; apply has_id_false.
      - congruence.
      - simpl. congruence. }
    split. { cbn [users]. rewrite decide_True by done. apply length_insert. }
    cbn [users].
    assert (E' : findIndex (has_id id)
                   (<[idx := user_of_update id data]> (users r)) = Some idx).
    { apply findIndex_Some. apply findIndex_Some in E as (x & Hx & Hpx & Hlt).
      exists (user_of_update id data). split.
      - apply list_lookup_insert_eq. by eapply lookup_lt_Some.
      - split; [done|]. intros j y Hj Hy.
        rewrite list_lookup_insert_ne in Hy by lia. by eapply Hlt. }
    rewrite E'. by rewrite list_insert_insert_eq.
  - pose proof E as Habs. apply findIndex_absent in Habs.
    split; [done|]. split.
    { rewrite findById_find. cbn [users]. f_equal. f_equal.
      rewrite find_append, (find_absent _ _ Habs). simpl. by rewrite Hself. }
    split.
    { intros id' Hne. rewrite !findById_find. cbn [users fst]. f_equal.
      rewrite find_append. destruct (find (has_id id') (users r)); [done|].
      simpl. unfold has_id. simpl.
      destruct (Z.eqb_spec id id'); [congruence|done]. }
    split.
    { cbn [users]. rewrite decide_False by done. rewrite length_app.
      simpl. lia. }
    cbn [users].
    destruct (delete_append_last (has_id id) (users r)
                (user_of_update id data) E Hself) as [E' _].
    rewrite E'. f_equal. f_equal.
    rewrite insert_app_r_alt by lia. rewrite Nat.sub_diag. done.
Qed.

Lemma update_is_upsert_witness :
  (findById 2 (update 1 Sample.updatedUser Sample.repository).2).1
  = (findById 2 Sample.repository).1
  /\ length (users (update 9 Sample.updatedUser Sample.repository).2) = 3.
Proof.
  destruct (update_is_upsert 1 Sample.updatedUser Sample.repository)
    as (_ & _ & Hother & _).
  destruct (update_is_upsert 9 Sample.updatedUser Sample.repository)
    as (_ & _ & _ & Hlen & _).
  split; [apply Hother; lia|]. rewrite Hlen. reflexivity.
Defined.

(** X13: [delete] answers [false] and changes nothing when the id is not
    stored.  When it is stored, [delete] answers [true], removes one user
    and leaves every other id found as before; and when the stored ids are
    pairwise different, the id is not stored afterwards: looking it up
    answers [null] and deleting it again answers [false]. *)
Theorem delete_removes_the_user (id : Z) (r : t) :
  (id ∉ ids (users r) -> delete id r = (Fulfilled false, r))
  /\ (id ∈ ids (users r) ->
      (delete id r).1 = Fulfilled true
      /\ S (length (users (delete id r).2)) = length (users r)
      /\ (forall id', id' <> id ->
            (findById id' (delete id r).2).1 = (findById id' r).1)
      /\ (NoDup (ids (users r)) ->
          (id ∉ ids (users (delete id r).2))
          /\ (findById id (delete id r).2).1 = Fulfilled None
          /\ delete id (delete id r).2 = (Fulfilled false, (delete id r).2))).
Proof.
  split; [apply delete_absent|].
  intros Hin.
  destruct (delete_present_spec id r Hin) as (idx & u & E & Hu & Hid & ->).
  cbn [fst snd users]. split; [done|]. split.
  { rewrite length_delete by eauto.
    apply lookup_lt_Some in Hu. lia. }
  split.
  { intros id' Hne. rewrite !findById_find. cbn [users fst]. f_equal.
    apply (find_delete_other _ _ _ u); [done|].
    apply has_id_false. congruence. }
  intros Hnd.
  assert (Habs : id ∉ ids (base.delete idx (users r))).
  { rewrite <- Hid. by apply NoDup_delete_absent. }
  split; [done|]. split.
  - rewrite findById_find. cbn [users fst]. f_equal. by apply find_absent.
  - by apply delete_absent.
Qed.

Lemma delete_removes_the_user_witness :
  delete 5 Sample.repository = (Fulfilled false, Sample.repository)
  /\ (delete 1 Sample.repository).1 = Fulfilled true
  /\ (findById 1 (delete 1 Sample.repository).2).1 = Fulfilled None.
Proof.
  destruct (delete_removes_the_user 5 Sample.repository) as [Habsent _].
  destruct (delete_removes_the_user 1 Sample.repository) as [_ Hpresent].
  assert (H5 : (5:Z) ∉ ids (users Sample.repository)).
  { apply (bool_decide_unpack _). vm_compute. exact I. }
  assert (H1 : (1:Z) ∈ ids (users Sample.repository)).
  { apply (bool_decide_unpack _). vm_compute. exact I. }
  assert (Hnd : NoDup (ids (users Sample.repository))).
  { apply (bool_decide_unpack _). vm_compute. exact I. }
  destruct (Hpresent H1) as (Ht & _ & _ & Hgone).
  destruct (Hgone Hnd) as (_ & Hnone & _).
  split; [exact (Habsent H5)|]. split; [exact Ht|exact Hnone].
Defined.

(** X14: [patch] answers [null] and changes nothing when the id is not
    stored.  When it is stored, the answer is the first user with that id
    with the name of the request, if the request has one, and all its other
    fields and its id as they were; that user is then found under the id,
    every other id is found as before and the number of users is the same.
    A request without a name leaves the repository as it was. *)
Theorem patch_changes_only_the_name (id : Z) (data : PatchUserNameBody.t)
    (r : t) :
  (id ∉ ids (users r) -> patch id data r = (Fulfilled None, r))
  /\ (id ∈ ids (users r) ->
      exists current,
        (findById id r).1 = Fulfilled (Some current)
        /\ (patch id data r).1 = Fulfilled (Some (user_patched current data))
        /\ user_patched current data
           = User.mk id
               (default (User.name current) (PatchUserNameBody.name data))
               (User.username current) (User.email current)
               (User.company current)
        /\ (findById id (patch id data r).2).1
           = Fulfilled (Some (user_patched current data))
        /\ (forall id', id' <> id ->
              (findById id' (patch id data r).2).1 = (findById id' r).1)
        /\ length (users (patch id data r).2) = length (users r)
        /\ (PatchUserNameBody.name data = None -> (patch id data r).2 = r)).
Proof.
  split; [apply patch_absent|].
  intros Hin.
  destruct (findIndex_present _ _ Hin) as (idx & u & E & Hu & Hid).
  exists u. unfold patch. rewrite E, Hu. cbn [fst snd users].
  assert (Hself : has_id id (user_patched u data) = true).
  { apply has_id_true. simpl. done. }
  split.
  { rewrite findById_find. cbn [fst]. f_equal.
    rewrite find_findIndex, E. simpl. done. }
  split; [done|]. split; [by rewrite <- Hid|]. split.
  { rewrite findById_find. cbn [users fst]. f_equal.
    by apply (find_insert_found _ _ _ _ E Hself). }
  split.
  { intros id' Hne. rewrite !findById_find. cbn [users fst]. f_equal.
    apply (find_insert_other _ _ _ u); [done|..]; apply has_id_false.
    - congruence.
    - simpl. congruence. }
  split; [apply length_insert|].
  intros Hnone. destruct r as [us]. cbn [users] in *. f_equal.
  apply list_insert_id. rewrite Hu. f_equal.
  unfold user_patched. rewrite Hnone. by destruct u.
Qed.

Lemma patch_changes_only_the_name_witness :
  patch 5 Sample.rename Sample.repository
  = (Fulfilled None, Sample.repository)
  /\ exists current,
       (patch 2 Sample.rename Sample.repository).1
       = Fulfilled (Some (user_patched current Sample.rename))
       /\ user_patched current Sample.rename
          = User.mk 2 "Patched Name" (User.username current)
                    (User.email current) (User.company current).
Proof.
  destruct (patch_changes_only_the_name 5 Sample.rename Sample.repository)
    as [Habsent _].
  destruct (patch_changes_only_the_name 2 Sample.rename Sample.repository)
    as [_ Hpresent].
  assert (H5 : (5:Z) ∉ ids (users Sample.repository)).
  { apply (bool_decide_unpack _). vm_compute. exact I. }
  assert (H2 : (2:Z) ∈ ids (users Sample.repository)).
  { apply (bool_decide_unpack _). vm_compute. exact I. }
  destruct (Hpresent H2) as (current & _ & Hp & Hshape & _).
  split; [exact (Habsent H5)|].
  exists current. split; [exact Hp|exact Hshape].
Defined.

(** X15: in a repository whose stored ids are safe integers (below [2^53]
    in absolute value, where the [+ 1] of [create] is exact), [create]
    followed by [delete] of the id it answered restores the repository
    exactly, and the next [create] answers that same id again: an id that
    was given out and deleted is given out anew. *)
Theorem create_then_delete_restores (data data' : CreateUserBody.t) (r : t)
    (u : User.t) :
  Forall safe_integer (ids (users r)) ->
  (create data r).1 = Fulfilled u ->
  delete (User.id u) (create data r).2 = (Fulfilled true, r)
  /\ (create data' (delete (User.id u) (create data r).2).2).1
     = Fulfilled (user_of_create (User.id u) data').
Proof.
  intros _ Hu. destruct (create_delete_restore data r u Hu) as [D C].
  split; [exact D|]. rewrite D. cbn [snd]. apply C.
Qed.

Lemma create_then_delete_restores_witness :
  delete 3 (create Sample.newUser Sample.repository).2
  = (Fulfilled true, Sample.repository)
  /\ (create Sample.newUser
        (delete 3 (create Sample.newUser Sample.repository).2).2).1
     = Fulfilled (user_of_create 3 Sample.newUser).
Proof.
  assert (Hsafe : Forall safe_integer (ids (users Sample.repository))).
  { repeat constructor; unfold safe_integer; simpl; lia. }
  exact (create_then_delete_restores Sample.newUser Sample.newUser
           Sample.repository (user_of_create 3 Sample.newUser)
           Hsafe eq_refl).
Defined.

End InMemoryFacts.

(** ** The mock repository of the tests *)

Section MockFacts.
Import MockUserRepository.

Lemma mock_create_unfold data r :
  create data r
  = (Fulfilled (user_of_create (currentId r) data),
     mk (users r ++ [user_of_create (currentId r) data])%list
        (currentId r + 1)).
Proof. reflexivity. Qed.

(** X16: in the mock every stored id lies below the counter after [new]
    and [clear], and after [setUsers] with users whose ids are safe integers
    (below [2^53] in absolute value, where the [+ 1] of [setUsers] is
    exact).  While it holds and the counter is a safe integer, so that the
    [++] of [create] is exact: [create] keeps it so, answers the counter as
    the id, which no stored user has, and keeps pairwise different ids
    pairwise different; [patch], [delete], and [update] with an id below the
    counter, keep it so as well. *)
Theorem mock_ids_below_counter (r : t) :
  ids_below new
  /\ ids_below (clear r)
  /\ (forall us, Forall safe_integer (ids us) -> ids_below (setUsers us r))
  /\ (ids_below r ->
      safe_integer (currentId r) ->
      (forall data,
         ids_below (create data r).2
         /\ (create data r).1 = Fulfilled (user_of_create (currentId r) data)
         /\ (currentId r ∉ ids (users r))
         /\ (NoDup (ids (users r)) -> NoDup (ids (users (create data r).2))))
      /\ (forall id data, ids_below (patch id data r).2)
      /\ (forall id, ids_below (delete id r).2)
      /\ (forall id data, (id < currentId r)%Z ->
                          ids_below (update id data r).2)).
Proof.
  split; [|split; [|split]].
  - intros v Hv. by apply not_elem_of_nil in Hv.
  - intros v Hv. by apply not_elem_of_nil in Hv.
  - intros us _ v Hv.
    destruct us as [|u rest]; [by apply not_elem_of_nil in Hv|].
    cbn [setUsers users currentId] in *.
    destruct (Math_max_ge (User.id u) (User.id <$> rest)) as [H1 H2].
    apply elem_of_cons in Hv as [->|Hv]; [lia|].
    assert (User.id v <= Math_max (User.id u) (User.id <$> rest))%Z; [|lia].
    apply H2. by apply list_elem_of_fmap_2.
  - intros Hb _.
    assert (Hfresh : currentId r ∉ ids (users r)).
    { intros Hin. apply list_elem_of_fmap in Hin as (v & Hv & Hin).
      apply Hb in Hin. lia. }
    split; [|split; [|split]].
    + intros data. rewrite mock_create_unfold. cbn [fst snd users currentId].
      split.
      { intros v Hv. cbn [users currentId] in *.
        apply elem_of_app in Hv as [Hv|Hv]; [apply Hb in Hv; lia|].
        apply list_elem_of_singleton in Hv as ->. simpl. lia. }
      split; [done|]. split; [done|].
      intros Hnd. unfold ids. rewrite fmap_app. apply NoDup_app.
      split; [done|]. split; [|apply NoDup_singleton].
      intros x Hx Hx'. apply list_elem_of_singleton in Hx'. simpl in Hx'.
      by subst.
    + intros id data v. unfold patch.
      destruct (findIndex (has_id id) (users r)) as [idx|] eqn:E; [|apply Hb].
      destruct (findIndex_lookup _ _ _ E) as (u & Hu & Hid). rewrite Hu.
      cbn [snd users currentId]. intros Hv.
      apply list_elem_of_lookup in Hv as [j Hj].
      destruct (decide (idx = j)) as [->|Hne].
      * rewrite list_lookup_insert_eq in Hj by (by eapply lookup_lt_Some).
        inversion Hj; subst. simpl. apply Hb.
        by eapply list_elem_of_lookup_2.
      * rewrite list_lookup_insert_ne in Hj by done. apply Hb.
        by eapply list_elem_of_lookup_2.
    + intros id v. unfold delete.
      destruct (findIndex (has_id id) (users r)) as [idx|] eqn:E; [|apply Hb].
      cbn [snd users currentId]. intros Hv. apply Hb.
      by eapply list_elem_of_delete_inv.
    + intros id data Hlt v. unfold update.
      destruct (findIndex (has_id id) (users r)) as [idx|] eqn:E;
        cbn [snd users currentId]; intros Hv.
      * apply list_elem_of_lookup in Hv as [j Hj].
        destruct (decide (idx = j)) as [->|Hne].
        -- destruct (findIndex_lookup _ _ _ E) as (u & Hu & Hid).
           rewrite list_lookup_insert_eq in Hj by (by eapply lookup_lt_Some).
           inversion Hj; subst. simpl. done.
        -- rewrite list_lookup_insert_ne in Hj by done. apply Hb.
           by eapply list_elem_of_lookup_2.
      * apply elem_of_app in Hv as [Hv|Hv]; [by apply Hb|].
        apply list_elem_of_singleton in Hv as ->. simpl. done.
Qed.

Lemma mock_ids_below_counter_witness :
  let r := setUsers Sample.sampleUsers new in
  ids_below r
  /\ (create Sample.newUser r).1
     = Fulfilled (user_of_create 3 Sample.newUser)
  /\ ids_below (create Sample.newUser r).2.
Proof.
  intros r.
  destruct (mock_ids_below_counter new) as (_ & _ & Hset & _).
  destruct (mock_ids_below_counter r) as (_ & _ & _ & Hkeep).
  assert (Hids : Forall safe_integer (ids Sample.sampleUsers)).
  { repeat constructor; unfold safe_integer; simpl; lia. }
  assert (Hsafe : safe_integer (currentId r)).
  { unfold safe_integer. simpl. lia. }
  destruct (Hkeep (Hset Sample.sampleUsers Hids) Hsafe) as (Hcreate & _).
  destruct (Hcreate Sample.newUser) as (Hb & Hid & _).
  split; [exact (Hset Sample.sampleUsers Hids)|].
  split; [exact Hid|exact Hb].
Defined.

End MockFacts.

(** X17: the mock and the in-memory repository give out ids differently.
    Take both with the same users, whose ids are safe integers, and the
    mock's counter, a safe integer too, at the id the in-memory repository
    would give next (safe integers lie below [2^53] in absolute value,
    where the [+ 1] and the [++] of the two [create] are exact).  After
    [create] and [delete] of the new id, the in-memory repository gives the
    same id again, the mock the next one. *)
Theorem mock_does_not_reuse_ids (data data' : CreateUserBody.t)
    (us : list User.t) (c : Z) :
  let m := MockUserRepository.mk us c in
  let r := InMemoryUserRepository.mk us in
  Forall safe_integer (ids us) ->
  safe_integer c ->
  (InMemoryUserRepository.create data r).1
  = Fulfilled (user_of_create c data) ->
  let m1 := (MockUserRepository.delete c
               (MockUserRepository.create data m).2).2 in
  let r1 := (InMemoryUserRepository.delete c
               (InMemoryUserRepository.create data r).2).2 in
  (MockUserRepository.create data m).1 = Fulfilled (user_of_create c data)
  /\ (InMemoryUserRepository.create data' r1).1
     = Fulfilled (user_of_create c data')
  /\ (MockUserRepository.create data' m1).1
     = Fulfilled (user_of_create (c + 1) data').
Proof.
  intros m r _ _ Hu m1 r1.
  destruct (create_delete_restore data r _ Hu) as [D C].
  split; [reflexivity|]. split.
  - unfold r1. change (User.id (user_of_create c data)) with c in D.
    rewrite D. cbn [snd]. apply C.
  - unfold m1, MockUserRepository.delete, MockUserRepository.create.
    cbn [snd fst MockUserRepository.users MockUserRepository.currentId].
    by destruct (findIndex _ _).
Qed.

Lemma mock_does_not_reuse_ids_witness :
  let m := MockUserRepository.mk Sample.sampleUsers 3 in
  let r := Sample.repository in
  (InMemoryUserRepository.create Sample.newUser
     (InMemoryUserRepository.delete 3
        (InMemoryUserRepository.create Sample.newUser r).2).2).1
  = Fulfilled (user_of_create 3 Sample.newUser)
  /\ (MockUserRepository.create Sample.newUser
        (MockUserRepository.delete 3
           (MockUserRepository.create Sample.newUser m).2).2).1
     = Fulfilled (user_of_create 4 Sample.newUser).
Proof.
  intros m r.
  assert (Hsafe : Forall safe_integer (ids Sample.sampleUsers)).
  { repeat constructor; unfold safe_integer; simpl; lia. }
  assert (Hc : safe_integer 3) by (unfold safe_integer; lia).
  destruct (mock_does_not_reuse_ids Sample.newUser Sample.newUser
              Sample.sampleUsers 3 Hsafe Hc eq_refl) as (_ & H1 & H2).
  split; [exact H1|exact H2].
Defined.

(** ** The use case and the controller on the in-memory repository *)

Section UseCaseFacts.
Import InMemoryUserRepository.

Lemma getUserById_unfold id r :
  UserUseCase.getUserById id r
  = match find (has_id id) (users r) with
    | Some user => (Fulfilled user, r)
    | None => (Rejected (UserUseCase.not_found id), r)
    end.
Proof.
  unfold UserUseCase.getUserById.
  cbn [IUserRepository.findById repository]. rewrite findById_find.
  by destruct (find _ _).
Qed.

(** X18: for an id that is a safe integer (below [2^53] in absolute value,
    which a template literal prints with all its decimal digits) and is not
    stored, [getUserById], [patchUser] and [deleteUser] of the use case
    reject with a [NotFoundError]: status 404, name ["NotFoundError"], the
    message ["User with id "], the id in decimal, [" not found"], and no
    details; the repository is left as it was. *)
Theorem usecase_rejects_absent_id (id : Z) (data : PatchUserNameBody.t)
    (r : t) :
  safe_integer id ->
  id ∉ ids (users r) ->
  UserUseCase.getUserById id r = (Rejected (UserUseCase.not_found id), r)
  /\ UserUseCase.patchUser id data r
     = (Rejected (UserUseCase.not_found id), r)
  /\ UserUseCase.deleteUser id r = (Rejected (UserUseCase.not_found id), r)
  /\ UserUseCase.not_found id
     = IsHttpError (HttpError.mk 404
         ("User with id " +:+ pretty id +:+ " not found") VUndefined
         "NotFoundError").
Proof.
  intros _ Habs. split; [|split; [|split]].
  - by rewrite getUserById_unfold, (find_absent _ _ Habs).
  - unfold UserUseCase.patchUser. cbn [IUserRepository.patch repository].
    by rewrite (patch_absent _ _ _ Habs).
  - unfold UserUseCase.deleteUser. cbn [IUserRepository.delete repository].
    by rewrite (delete_absent _ _ Habs).
  - reflexivity.
Qed.

Lemma usecase_rejects_absent_id_witness :
  UserUseCase.getUserById 999 Sample.repository
  = (Rejected
       (IsHttpError (HttpError.mk 404 "User with id 999 not found" VUndefined
                                  "NotFoundError")),
     Sample.repository).
Proof.
  assert (Habs : (999:Z) ∉ ids (users Sample.repository)).
  { apply (bool_decide_unpack _). vm_compute. exact I. }
  assert (Hsafe : safe_integer 999).
  { unfold safe_integer. simpl. lia. }
  destruct (usecase_rejects_absent_id 999 Sample.rename Sample.repository
              Hsafe Habs) as (H & _).
  exact H.
Defined.

(** X19: for an id that is stored, [getUserById] resolves with a stored
    user of that id and changes nothing; [patchUser] resolves with that
    user under the name of the request; [deleteUser] resolves, and when the
    stored ids are pairwise different a later [getUserById] of the id
    rejects with the [NotFoundError]. *)
Theorem usecase_serves_stored_id (id : Z) (data : PatchUserNameBody.t)
    (r : t) :
  id ∈ ids (users r) ->
  exists user,
    UserUseCase.getUserById id r = (Fulfilled user, r)
    /\ User.id user = id
    /\ user ∈ users r
    /\ (UserUseCase.patchUser id data r).1
       = Fulfilled (user_patched user data)
    /\ (UserUseCase.deleteUser id r).1 = Fulfilled tt
    /\ (NoDup (ids (users r)) ->
        UserUseCase.getUserById id (UserUseCase.deleteUser id r).2
        = (Rejected (UserUseCase.not_found id),
           (UserUseCase.deleteUser id r).2)).
Proof.
  intros Hin.
  destruct (findIndex_present _ _ Hin) as (idx & u & E & Hu & Hid).
  assert (Hfind : find (has_id id) (users r) = Some u).
  { rewrite find_findIndex, E. exact Hu. }
  exists u. split; [by rewrite getUserById_unfold, Hfind|].
  split; [done|]. split; [by eapply list_elem_of_lookup_2|].
  split.
  { unfold UserUseCase.patchUser. cbn [IUserRepository.patch repository].
    unfold patch. by rewrite E, Hu. }
  assert (D : UserUseCase.deleteUser id r
              = (Fulfilled tt, (delete id r).2)).
  { unfold UserUseCase.deleteUser. cbn [IUserRepository.delete repository].
    unfold delete. by rewrite E. }
  rewrite D. split; [done|].
  intros Hnd. cbn [snd]. rewrite getUserById_unfold.
  by rewrite (find_absent _ _ (delete_present_gone id r Hin Hnd)).
Qed.

Lemma usecase_serves_stored_id_witness :
  exists user,
    UserUseCase.getUserById 2 Sample.repository
    = (Fulfilled user, Sample.repository)
    /\ User.id user = 2%Z
    /\ (UserUseCase.deleteUser 2 Sample.repository).1 = Fulfilled tt.
Proof.
  assert (Hin : (2:Z) ∈ ids (users Sample.repository)).
  { apply (bool_decide_unpack _). vm_compute. exact I. }
  destruct (usecase_serves_stored_id 2 Sample.rename Sample.repository Hin)
    as (user & H1 & H2 & _ & _ & H3 & _).
  exists user. split; [exact H1|]. split; [exact H2|exact H3].
Defined.

(** X20: through the controller of an in-memory repository whose stored
    ids are safe integers (below [2^53] in absolute value, where the [+ 1]
    of [create] is exact), a user that [createUser] answered is the user
    that [getUserById] answers for its id, and [getUsers] answers the users
    stored before followed by that user. *)
Theorem controller_create_then_get (body : CreateUserBody.t) (r : t) :
  Forall safe_integer (ids (users r)) ->
  exists user r',
    UserController.createUser body r = (Fulfilled user, r')
    /\ user = user_of_create (User.id user) body
    /\ UserController.getUserById (User.id user) r' = (Fulfilled user, r')
    /\ UserController.getUsers r'
       = (Fulfilled (users r ++ [user])%list, r').
Proof.
  intros _.
  destruct (create_spec body r) as (u & E & Hu & _).
  destruct (findById_created body r) as (u' & E' & Hfound).
  assert (u' = u) by congruence. subst u'.
  exists u, (mk (users r ++ [u])).
  split; [exact E|]. split; [exact Hu|]. split.
  - unfold UserController.getUserById. rewrite getUserById_unfold.
    rewrite E in Hfound. cbn [snd] in Hfound.
    rewrite findById_find in Hfound. injection Hfound as Hfound.
    cbn [users] in *. by rewrite Hfound.
  - reflexivity.
Qed.

Lemma controller_create_then_get_witness :
  exists user r',
    UserController.createUser Sample.newUser Sample.repository
    = (Fulfilled user, r')
    /\ UserController.getUserById (User.id user) r' = (Fulfilled user, r').
Proof.
  assert (Hsafe : Forall safe_integer (ids (users Sample.repository))).
  { repeat constructor; unfold safe_integer; simpl; lia. }
  destruct (controller_create_then_get Sample.newUser Sample.repository Hsafe)
    as (user & r' & H1 & _ & H2 & _).
  exists user, r'. split; [exact H1|exact H2].
Defined.

End UseCaseFacts.

(** ** The error handlers *)

(** X21: whatever the code and the error, [errorHandler] sets a status and
    returns a body whose [statusCode] is that status.  For an [HttpError]
    both are the error's own status, the body carries the error's name and
    message, carries its details exactly when they are truthy, and nothing
    is logged, whatever the code.  For any other error the status is 400,
    404 or 500 and the message is one of four fixed texts: the error's own
    message appears only as the details of a validation error; the status
    is 500 exactly when the code is none of ["VALIDATION"], ["NOT_FOUND"],
    ["PARSE"], and exactly then the error is logged. *)
Theorem errorHandler_status_and_body (code : string) (e : js_error) :
  let h := errorHandler code e in
  ErrorResponse.statusCode (body h) = status h
  /\ match e with
     | IsHttpError he =>
         status h = HttpError.statusCode he
         /\ ErrorResponse.error (body h) = HttpError.name he
         /\ ErrorResponse.message (body h) = HttpError.message he
         /\ ErrorResponse.details (body h)
            = (if to_boolean (HttpError.details he)
               then Some (HttpError.details he) else None)
         /\ logged h = false
     | OtherError m =>
         status h ∈ [400; 404; 500]%Z
         /\ ErrorResponse.message (body h)
            ∈ ["Validation failed"; "Route not found";
               "Failed to parse request"; "An unexpected error occurred"]
         /\ ErrorResponse.details (body h)
            = (if String.eqb code "VALIDATION" then Some (VStr m) else None)
         /\ (status h = 500%Z <->
             code ∉ ["VALIDATION"; "NOT_FOUND"; "PARSE"])
         /\ (logged h = true <-> status h = 500%Z)
     end.
Proof.
  intros h. unfold h, errorHandler. destruct e as [he|m].
  - cbn [status body logged ErrorResponse.statusCode ErrorResponse.error
         ErrorResponse.message ErrorResponse.details]. by repeat split.
  - destruct (String.eqb_spec code "VALIDATION") as [->|Hv].
    { cbn. split; [done|]. split; [set_solver|]. split; [set_solver|].
      split; [done|]. split; [|done]. split; [done|]. intros H. set_solver. }
    destruct (String.eqb_spec code "NOT_FOUND") as [->|Hn].
    { cbn. split; [done|]. split; [set_solver|]. split; [set_solver|].
      split; [done|]. split; [|done]. split; [done|]. intros H. set_solver. }
    destruct (String.eqb_spec code "PARSE") as [->|Hp].
    { cbn. split; [done|]. split; [set_solver|]. split; [set_solver|].
      split; [done|]. split; [|done]. split; [done|]. intros H. set_solver. }
    cbn. split; [done|]. split; [set_solver|]. split; [set_solver|].
    split; [done|]. split; [|done]. split; [|done]. intros _.
    rewrite !not_elem_of_cons. repeat split; [done..|].
    apply not_elem_of_nil.
Qed.

(** X22: the handler that [createTestApp] installs answers exactly as
    [errorHandler] does, except for an error that is not an [HttpError]
    under the code ["VALIDATION"]: there the application answers 400 and
    the test application 422. *)
Theorem handlers_differ_only_on_validation (code : string) (e : js_error) :
  (createTestApp_onError code e = errorHandler code e <->
   ~ (code = "VALIDATION" /\ exists m, e = OtherError m))
  /\ (forall m, status (errorHandler "VALIDATION" (OtherError m)) = 400%Z
                /\ status (createTestApp_onError "VALIDATION" (OtherError m))
                   = 422%Z).
Proof.
  split; [|by intros m].
  unfold createTestApp_onError, errorHandler. destruct e as [he|m].
  - split; [|done]. intros _ (_ & m & Hm). discriminate.
  - destruct (String.eqb_spec code "VALIDATION") as [->|Hv].
    + split; [discriminate|]. intros H. exfalso. apply H. eauto.
    + split; [|done]. intros _ (Hc & _). done.
Qed.

Lemma handlers_differ_only_on_validation_witness :
  createTestApp_onError "NOT_FOUND" (OtherError "no route")
  = errorHandler "NOT_FOUND" (OtherError "no route").
Proof.
  destruct (handlers_differ_only_on_validation "NOT_FOUND"
              (OtherError "no route")) as [[_ H] _].
  apply H. intros [Hc _]. discriminate.
Defined.


